(** * Blinded ECDH with an HSM-held key: the derivation core

    A shallow embedding of [src/lib/hkdf.ts] and [src/lib/crypto.ts] (and of
    the two key-derivation callbacks of the demo page), with the properties
    the protocol description states about them.

    Conventions.
    - A JavaScript string is a [string]: a sequence of code units, here the
      code units below 256.
    - A [Uint8Array] (and the [ArrayBuffer] behind it) is a [list byte].
    - A thrown exception / rejected promise is [Err e]; [await] is the bind
      of the monad the function lives in.
    - Functions that reach the global [crypto] object thread a [World]
      (the state of the secure random source). *)

From Stdlib Require Import ZArith List String Ascii Bool Lia Arith.
From Stdlib Require Import Init.Byte Strings.Byte.
From Stdlib Require Import Zcong.
Import ListNotations.

Local Open Scope string_scope.
Local Open Scope Z_scope.

(** ** Outcomes *)

(** What a call can throw.  The repository has no error classes of its own:
    it throws plain [Error]s and lets the platform's and the curve library's
    exceptions through.  The constructors name them by origin; the first four
    are the error kinds of the protocol description. *)
Inductive error : Type :=
| InvalidScalar      (* curve library: scalar outside [1, n-1] *)
| InvalidPoint       (* curve library: bytes are not a nonzero curve point,
                        or the point at infinity is serialised *)
| MalformedEncoding  (* [throw new Error('Invalid ... format')] in crypto.ts *)
| InvalidLength      (* HKDF length bound; no code path constructs it *)
| SyntaxError        (* [BigInt(string)] on a string that is no integer *)
| DataError          (* WebCrypto [importKey] on empty HMAC key material *)
| InvalidAccessError (* WebCrypto [sign] with a key lacking the usage *)
| RangeError         (* [TypedArray.prototype.set] past the end of the target *).

Inductive result (A : Type) : Type :=
| Ok (a : A)
| Err (e : error).
Arguments Ok {A} a.
Arguments Err {A} e.

Definition bindR {A B} (r : result A) (k : A -> result B) : result B :=
  match r with
  | Ok a => k a
  | Err e => Err e
  end.

Declare Scope result_scope.
Delimit Scope result_scope with result.
Notation "x <- r ;; k" := (bindR r (fun x => k))
  (at level 61, r at next level, right associativity) : result_scope.

(** ** JavaScript values *)

Module JS.

Definition Uint8Array := list byte.

(** [ToUint8]: what a typed-array store keeps of a number. *)
Definition ToUint8 (z : Z) : byte :=
  match Byte.of_N (Z.to_N (z mod 256)) with
  | Some b => b
  | None => x00
  end.

Definition byte_val (b : byte) : Z := Z.of_N (Byte.to_N b).

(** [new Uint8Array(len)] *)
Definition new_Uint8Array (len : nat) : Uint8Array := repeat x00 len.

(** [arr[idx] = v]; a store past the end of a typed array is dropped. *)
Fixpoint u8_store (arr : Uint8Array) (idx : nat) (v : byte) : Uint8Array :=
  match arr, idx with
  | [], _ => []
  | _ :: tl, O => v :: tl
  | hd :: tl, S i => hd :: u8_store tl i v
  end.

(** A relative index of [slice]: negative counts from the end, then
    clamped to the array. *)
Definition rel_index (len : nat) (k : Z) : nat :=
  if k <? 0 then Z.to_nat (Z.max (Z.of_nat len + k) 0)
  else Nat.min (Z.to_nat k) len.

(** [arr.slice(start, end)] *)
Definition u8_slice (arr : Uint8Array) (start stop : Z) : Uint8Array :=
  let from := rel_index (List.length arr) start in
  let to := rel_index (List.length arr) stop in
  firstn (to - from) (skipn from arr).

(** [target.set(source, offset)]: throws when the source does not fit. *)
Definition u8_set (target source : Uint8Array) (offset : nat)
  : result Uint8Array :=
  if (offset + List.length source <=? List.length target)%nat
  then Ok (firstn offset target ++ source
             ++ skipn (offset + List.length source) target)%list
  else Err RangeError.

(** [s.replace(pat, repl)] with a string pattern: the first occurrence
    only ([repl] without [$] patterns). *)
Fixpoint String_replace (pat repl s : string) : string :=
  if String.prefix pat s
  then repl ++ substring (String.length pat)
                         (String.length s - String.length pat) s
  else match s with
       | EmptyString => EmptyString
       | String c s' => String c (String_replace pat repl s')
       end.

(** [s.substr(start, len)] for a non-negative start. *)
Definition String_substr (s : string) (start len : nat) : string :=
  substring start len s.

(** [s.padStart(len, fill)] with a one-character filler. *)
Definition String_padStart (s : string) (len : nat) (fill : ascii) : string :=
  string_of_list_ascii (repeat fill (len - String.length s)) ++ s.

Definition code (c : ascii) : Z := Z.of_N (N_of_ascii c).

(** The value of a digit in radix 16, if the character is one. *)
Definition hexDigitValue (c : ascii) : option Z :=
  let k := code c in
  if (48 <=? k) && (k <=? 57) then Some (k - 48)
  else if (97 <=? k) && (k <=? 102) then Some (k - 87)
  else if (65 <=? k) && (k <=? 70) then Some (k - 55)
  else None.

(** The digit of a value below 16, as [Number.prototype.toString(16)]
    writes it (lower case). *)
Definition hexDigit (d : Z) : ascii :=
  ascii_of_N (Z.to_N (if d <? 10 then 48 + d else 87 + d)).

Fixpoint toString16_aux (fuel : nat) (v : Z) : string :=
  match fuel with
  | O => EmptyString
  | S f =>
      if v <? 16 then String (hexDigit v) EmptyString
      else toString16_aux f (v / 16) ++ String (hexDigit (v mod 16)) EmptyString
  end.

(** [v.toString(16)] for a non-negative integer. *)
Definition Number_toString16 (v : Z) : string :=
  toString16_aux (S (Z.to_nat (Z.log2 v))) v.

(** [b => b.toString(16).padStart(2, '0')] *)
Definition hex2 (b : byte) : string :=
  String_padStart (Number_toString16 (byte_val b)) 2 "0".

(** White space that [parseInt] skips and [BigInt] trims. *)
Definition isWhiteSpace (c : ascii) : bool :=
  let k := code c in
  ((9 <=? k) && (k <=? 13)) || (k =? 32) || (k =? 160).

Fixpoint trimStart (s : string) : string :=
  match s with
  | String c s' => if isWhiteSpace c then trimStart s' else s
  | EmptyString => EmptyString
  end.

Fixpoint trimEnd (s : string) : string :=
  match s with
  | EmptyString => EmptyString
  | String c s' =>
      match trimEnd s' with
      | EmptyString => if isWhiteSpace c then EmptyString
                       else String c EmptyString
      | t => String c t
      end
  end.

(** The longest prefix of hexadecimal digits, read as a number:
    the digits seen so far, and their value. *)
Fixpoint hexPrefix (s : string) (seen : bool) (acc : Z) : option Z :=
  match s with
  | EmptyString => if seen then Some acc else None
  | String c s' =>
      match hexDigitValue c with
      | Some d => hexPrefix s' true (16 * acc + d)
      | None => if seen then Some acc else None
      end
  end.

(** [parseInt(s, 16)]; [None] is [NaN]. *)
Definition parseInt16 (s : string) : option Z :=
  let s1 := trimStart s in
  let '(sign, s2) :=
    match s1 with
    | String "-" r => (-1, r)
    | String "+" r => (1, r)
    | _ => (1, s1)
    end in
  let s3 :=
    match s2 with
    | String "0" (String "x" r) => r
    | String "0" (String "X" r) => r
    | _ => s2
    end in
  match hexPrefix s3 false 0 with
  | Some v => Some (sign * v)
  | None => None
  end.

(** The number a typed-array store keeps: [NaN] becomes 0. *)
Definition store_number (v : option Z) : byte :=
  match v with
  | Some z => ToUint8 z
  | None => x00
  end.

(** All characters are hexadecimal digits; the value read. *)
Fixpoint hexAll (s : string) (acc : Z) : option Z :=
  match s with
  | EmptyString => Some acc
  | String c s' =>
      match hexDigitValue c with
      | Some d => hexAll s' (16 * acc + d)
      | None => None
      end
  end.

(** [BigInt('0x' + s)]: the argument is trimmed, and what is left must be
    [0x] followed by at least one hexadecimal digit. *)
Definition BigInt_0x (s : string) : result Z :=
  match trimEnd s with
  | EmptyString => Err SyntaxError
  | t => match hexAll t 0 with
         | Some v => Ok v
         | None => Err SyntaxError
         end
  end.

(** [new TextEncoder().encode(s)]: UTF-8; a code unit from 128 to 255
    takes two bytes. *)
Definition utf8_unit (c : ascii) : list byte :=
  let k := code c in
  if k <? 128 then [ToUint8 k]
  else [ToUint8 (192 + k / 64); ToUint8 (128 + k mod 64)].

Fixpoint TextEncoder_encode (s : string) : Uint8Array :=
  match s with
  | EmptyString => []
  | String c s' => (utf8_unit c ++ TextEncoder_encode s')%list
  end.

End JS.

(** ** The platform: SHA-256, HMAC and the WebCrypto calls the code makes *)

(** SHA-256 (FIPS 180-4) on 32-bit words kept in [Z], and HMAC (RFC 2104)
    over it: what [crypto.subtle.sign('HMAC', key, data)] computes for a key
    imported with [hash: 'SHA-256']. *)
Module SHA256.
Import JS.

Definition mask32 : Z := 4294967295.
Definition add32 (x y : Z) : Z := (x + y) mod 4294967296.
Definition not32 (x : Z) : Z := Z.lxor x mask32.
Definition rotr (k x : Z) : Z :=
  Z.lor (Z.shiftr x k) (Z.land (Z.shiftl x (32 - k)) mask32).
Definition xor3 (x y z : Z) : Z := Z.lxor (Z.lxor x y) z.

Definition Ch (x y z : Z) : Z := Z.lxor (Z.land x y) (Z.land (not32 x) z).
Definition Maj (x y z : Z) : Z :=
  xor3 (Z.land x y) (Z.land x z) (Z.land y z).
Definition Sum0 (x : Z) : Z := xor3 (rotr 2 x) (rotr 13 x) (rotr 22 x).
Definition Sum1 (x : Z) : Z := xor3 (rotr 6 x) (rotr 11 x) (rotr 25 x).
Definition sig0 (x : Z) : Z := xor3 (rotr 7 x) (rotr 18 x) (Z.shiftr x 3).
Definition sig1 (x : Z) : Z := xor3 (rotr 17 x) (rotr 19 x) (Z.shiftr x 10).

(** [k] words of eight hexadecimal digits each. *)
Fixpoint hex_words (k : nat) (s : string) : list Z :=
  match k with
  | O => []
  | S k' =>
      match hexAll (substring 0 8 s) 0 with
      | Some v => v
      | None => 0
      end :: hex_words k' (substring 8 (String.length s - 8) s)
  end.

(** The round constants (FIPS 180-4, 4.2.2). *)
Definition K : list Z := Eval vm_compute in hex_words 64
  ("428a2f9871374491b5c0fbcfe9b5dba53956c25b59f111f1923f82a4ab1c5ed5"
++ "d807aa9812835b01243185be550c7dc372be5d7480deb1fe9bdc06a7c19bf174"
++ "e49b69c1efbe47860fc19dc6240ca1cc2de92c6f4a7484aa5cb0a9dc76f988da"
++ "983e5152a831c66db00327c8bf597fc7c6e00bf3d5a7914706ca635114292967"
++ "27b70a852e1b21384d2c6dfc53380d13650a7354766a0abb81c2c92e92722c85"
++ "a2bfe8a1a81a664bc24b8b70c76c51a3d192e819d6990624f40e3585106aa070"
++ "19a4c1161e376c082748774c34b0bcb5391c0cb34ed8aa4a5b9cca4f682e6ff3"
++ "748f82ee78a5636f84c878148cc7020890befffaa4506cebbef9a3f7c67178f2").

Definition state : Type := (Z * Z * Z * Z * Z * Z * Z * Z)%type.

(** The initial hash value (FIPS 180-4, 5.3.3). *)
Definition H0_words : list Z := Eval vm_compute in hex_words 8
  "6a09e667bb67ae853c6ef372a54ff53a510e527f9b05688c1f83d9ab5be0cd19".

Definition H0 : state :=
  match H0_words with
  | [a; b; c; d; e; f; g; h] => (a, b, c, d, e, f, g, h)
  | _ => (0, 0, 0, 0, 0, 0, 0, 0)
  end.

(** Big-endian bytes of a value, [k] of them. *)
Fixpoint be_bytes (k : nat) (v : Z) : list byte :=
  match k with
  | O => []
  | S k' => (be_bytes k' (v / 256) ++ [ToUint8 v])%list
  end.

Fixpoint be_value (bs : list byte) (acc : Z) : Z :=
  match bs with
  | [] => acc
  | b :: tl => be_value tl (256 * acc + byte_val b)
  end.

(** Padding (FIPS 180-4, 5.1.1): a one bit, zeros, the bit length on
    64 bits. *)
Definition pad (msg : list byte) : list byte :=
  let len := Z.of_nat (List.length msg) in
  (msg ++ [x80] ++ repeat x00 (Z.to_nat ((55 - len) mod 64))
       ++ be_bytes 8 (8 * len))%list.

(** The message schedule, most recent word first. *)
Fixpoint extend (k : nat) (ws : list Z) : list Z :=
  match k with
  | O => ws
  | S k' =>
      let w := add32 (add32 (sig1 (nth 1 ws 0)) (nth 6 ws 0))
                     (add32 (sig0 (nth 14 ws 0)) (nth 15 ws 0)) in
      extend k' (w :: ws)
  end.

Fixpoint block_words (k : nat) (bs : list byte) : list Z :=
  match k with
  | O => []
  | S k' => be_value (firstn 4 bs) 0 :: block_words k' (skipn 4 bs)
  end.

Definition round (s : state) (kw : Z * Z) : state :=
  let '(a, b, c, d, e, f, g, h) := s in
  let t1 := add32 (add32 (add32 h (Sum1 e)) (add32 (Ch e f g) (fst kw)))
                  (snd kw) in
  let t2 := add32 (Sum0 a) (Maj a b c) in
  (add32 t1 t2, a, b, c, add32 d t1, e, f, g).

Definition compress (s : state) (block : list byte) : state :=
  let ws := rev (extend 48 (rev (block_words 16 block))) in
  let '(a, b, c, d, e, f, g, h) := fold_left round (combine K ws) s in
  let '(a0, b0, c0, d0, e0, f0, g0, h0) := s in
  (add32 a0 a, add32 b0 b, add32 c0 c, add32 d0 d,
   add32 e0 e, add32 f0 f, add32 g0 g, add32 h0 h).

Fixpoint blocks (k : nat) (s : state) (bs : list byte) : state :=
  match k with
  | O => s
  | S k' => blocks k' (compress s (firstn 64 bs)) (skipn 64 bs)
  end.

Definition digest_bytes (s : state) : list byte :=
  let '(a, b, c, d, e, f, g, h) := s in
  (be_bytes 4 a ++ be_bytes 4 b ++ be_bytes 4 c ++ be_bytes 4 d
    ++ be_bytes 4 e ++ be_bytes 4 f ++ be_bytes 4 g ++ be_bytes 4 h)%list.

Definition sha256 (msg : list byte) : list byte :=
  let p := pad msg in
  digest_bytes (blocks (List.length p / 64) H0 p).

Definition xor_byte (c : Z) (b : byte) : byte :=
  ToUint8 (Z.lxor c (byte_val b)).

(** HMAC (RFC 2104) with block size 64. *)
Definition hmac (key data : list byte) : list byte :=
  let k0 := if (64 <? List.length key)%nat then sha256 key else key in
  let k := (k0 ++ repeat x00 (64 - List.length k0))%list in
  sha256 (map (xor_byte 92) k ++ sha256 (map (xor_byte 54) k ++ data))%list.

End SHA256.

(** ** Code that reaches the global [crypto] object *)

(** The secure random source, as the bytes it is going to deliver. *)
Definition World : Type := nat -> byte.

(** An [async] computation: it may consume randomness and may reject. *)
Definition M (A : Type) : Type := World -> result A * World.

Definition ret {A} (a : A) : M A := fun w => (Ok a, w).
Definition throw {A} (e : error) : M A := fun w => (Err e, w).
Definition lift {A} (r : result A) : M A := fun w => (r, w).

Definition bindM {A B} (m : M A) (k : A -> M B) : M B :=
  fun w =>
    match m w with
    | (Ok a, w') => k a w'
    | (Err e, w') => (Err e, w')
    end.

(** [try { ... } catch (error) { console.error(...) }]: the failure is
    logged and swallowed. *)
Definition try_catch {A} (m : M A) : M (option A) :=
  fun w =>
    match m w with
    | (Ok a, w') => (Ok (Some a), w')
    | (Err _, w') => (Ok None, w')
    end.

Declare Scope M_scope.
Delimit Scope M_scope with M.
Notation "x <~ m ;; k" := (bindM m (fun x => k))
  (at level 61, m at next level, right associativity) : M_scope.

Module WebCrypto.
Import JS.

Inductive KeyUsage : Type := sign_usage | verify_usage | deriveKey | deriveBits.

Definition KeyUsage_eqb (a b : KeyUsage) : bool :=
  match a, b with
  | sign_usage, sign_usage | verify_usage, verify_usage
  | deriveKey, deriveKey | deriveBits, deriveBits => true
  | _, _ => false
  end.

(** An HMAC [CryptoKey] with [hash: 'SHA-256']. *)
Record CryptoKey : Type := {
  key_data : Uint8Array;
  key_extractable : bool;
  key_usages : list KeyUsage
}.

Record CryptoKeyPair (K : Type) : Type := {
  publicKey : K;
  privateKey : K
}.
Arguments publicKey {K} _.
Arguments privateKey {K} _.

(** [crypto.subtle.importKey('raw', data, {name:'HMAC', hash:'SHA-256'},
    extractable, usages)]; empty key material is refused. *)
Definition importKey_raw_HMAC (data : Uint8Array) (extractable : bool)
    (usages : list KeyUsage) : M CryptoKey :=
  match data with
  | [] => throw DataError
  | _ => ret {| key_data := data; key_extractable := extractable;
                key_usages := usages |}
  end.

(** [crypto.subtle.sign('HMAC', key, data)] *)
Definition sign_HMAC (key : CryptoKey) (data : Uint8Array) : M Uint8Array :=
  if existsb (KeyUsage_eqb sign_usage) (key_usages key)
  then ret (SHA256.hmac (key_data key) data)
  else throw InvalidAccessError.

(** [crypto.getRandomValues(arr)]: the array, filled from the source. *)
Definition getRandomValues (arr : Uint8Array) : M Uint8Array :=
  fun w => (Ok (map w (seq 0 (List.length arr))),
            fun i => w (i + List.length arr)%nat).

End WebCrypto.

(** ** [src/lib/hkdf.ts] *)

Module Hkdf.
Import JS WebCrypto.
Local Open Scope M_scope.

(** [Math.ceil(a / b)] for integers, [b] positive. *)
Definition Math_ceil_div (a b : Z) : Z := - ((- a) / b).

(** The loop [for (let i = 1; i <= n; i++)] of [hkdf], with the loop
    variables [t] and [okm]; [fuel] bounds the number of rounds, and [n]
    rounds are enough. *)
Fixpoint hkdf_loop (fuel : nat) (i n : Z) (expandKey : CryptoKey)
    (infoBytes t okm : Uint8Array) : M Uint8Array :=
  match fuel with
  | O => ret okm
  | S fuel' =>
      if i <=? n then
        let input := new_Uint8Array (List.length t + List.length infoBytes + 1) in
        input <~ lift (u8_set input t 0) ;;
        input <~ lift (u8_set input infoBytes (List.length t)) ;;
        let input := u8_store input (List.length input - 1) (ToUint8 i) in
        sig <~ sign_HMAC expandKey input ;;
        let t := sig in
        let newOkm := new_Uint8Array (List.length okm + List.length t) in
        newOkm <~ lift (u8_set newOkm okm 0) ;;
        newOkm <~ lift (u8_set newOkm t (List.length okm)) ;;
        hkdf_loop fuel' (i + 1) n expandKey infoBytes t newOkm
      else ret okm
  end.

Definition hkdf (ikm : Uint8Array) (salt info : string) (length : Z)
  : M Uint8Array :=
  let saltBytes := TextEncoder_encode salt in
  let infoBytes := TextEncoder_encode info in
  extractKey <~ importKey_raw_HMAC
    (if (0 <? List.length saltBytes)%nat then saltBytes
     else new_Uint8Array 32)
    false [sign_usage] ;;
  prk <~ sign_HMAC extractKey ikm ;;
  expandKey <~ importKey_raw_HMAC prk false [sign_usage] ;;
  let n := Math_ceil_div length 32 in
  okm <~ hkdf_loop (Z.to_nat n) 1 n expandKey infoBytes [] [] ;;
  ret (u8_slice okm 0 length).

Definition arrayBufferToHex (buffer : Uint8Array) : string :=
  "0x" ++ String.concat ""
    (map hex2 buffer).

Fixpoint hexToArrayBuffer_loop (fuel i : nat) (cleanHex : string)
    (bytes : Uint8Array) : Uint8Array :=
  match fuel with
  | O => bytes
  | S fuel' =>
      if (i <? String.length cleanHex)%nat then
        hexToArrayBuffer_loop fuel' (i + 2) cleanHex
          (u8_store bytes (i / 2)
             (store_number (parseInt16 (String_substr cleanHex i 2))))
      else bytes
  end.

Definition hexToArrayBuffer (hex : string) : Uint8Array :=
  let cleanHex := String_replace "0x" "" hex in
  let bytes := new_Uint8Array (String.length cleanHex / 2) in
  hexToArrayBuffer_loop (String.length cleanHex) 0 cleanHex bytes.

Record Steps : Type := {
  prk : Uint8Array;
  okm : Uint8Array;
  prkHex : string;
  okmHex : string
}.

(** The loop of [hkdfWithSteps]: its own copy of the expand iteration. *)
Fixpoint hkdfWithSteps_loop (fuel : nat) (i n : Z) (expandKey : CryptoKey)
    (infoBytes t okm : Uint8Array) : M Uint8Array :=
  match fuel with
  | O => ret okm
  | S fuel' =>
      if i <=? n then
        let input := new_Uint8Array (List.length t + List.length infoBytes + 1) in
        input <~ lift (u8_set input t 0) ;;
        input <~ lift (u8_set input infoBytes (List.length t)) ;;
        let input := u8_store input (List.length input - 1) (ToUint8 i) in
        sig <~ sign_HMAC expandKey input ;;
        let t := sig in
        let newOkm := new_Uint8Array (List.length okm + List.length t) in
        newOkm <~ lift (u8_set newOkm okm 0) ;;
        newOkm <~ lift (u8_set newOkm t (List.length okm)) ;;
        hkdfWithSteps_loop fuel' (i + 1) n expandKey infoBytes t newOkm
      else ret okm
  end.

Definition hkdfWithSteps (ikm : Uint8Array) (salt info : string)
    (length : Z) : M Steps :=
  let saltBytes := TextEncoder_encode salt in
  let infoBytes := TextEncoder_encode info in
  extractKey <~ importKey_raw_HMAC
    (if (0 <? List.length saltBytes)%nat then saltBytes
     else new_Uint8Array 32)
    false [sign_usage] ;;
  prk <~ sign_HMAC extractKey ikm ;;
  expandKey <~ importKey_raw_HMAC prk false [sign_usage] ;;
  let n := Math_ceil_div length 32 in
  okm <~ hkdfWithSteps_loop (Z.to_nat n) 1 n expandKey infoBytes [] [] ;;
  let finalOkm := u8_slice okm 0 length in
  ret {| prk := prk;
         okm := finalOkm;
         prkHex := arrayBufferToHex prk;
         okmHex := arrayBufferToHex finalOkm |}.

End Hkdf.

(** ** The curve backend *)

(** The repository computes on the curve through [@noble/curves/p256], a
    dependency that is not part of it.  The backend is a parameter: the group
    of curve points with its scalar multiplication and the uncompressed SEC1
    codec. *)
Record Curve : Type := {
  point : Type;
  order : Z;                              (* the group order n *)
  BASE : point;                           (* the generator G *)
  is0 : point -> bool;                    (* the point at infinity *)
  mul : Z -> point -> point;              (* k * P *)
  toBytes : point -> list byte;           (* 0x04 || x || y *)
  fromBytes : list byte -> option point   (* decoding with the on-curve check *)
}.

(** What the protocol needs of the backend: a group of prime order [n], so
    that no multiple [k * P] with [1 <= k < n] of a nonzero point vanishes,
    and a codec that round-trips. *)
Record CurveLaws (C : Curve) : Prop := {
  BASE_nonzero : is0 C (BASE C) = false;
  mul_mul : forall a b P, mul C a (mul C b P) = mul C (a * b) P;
  mul_nonzero : forall k P,
      1 <= k < order C -> is0 C P = false -> is0 C (mul C k P) = false;
  toBytes_length : forall P,
      is0 C P = false -> List.length (toBytes C P) = 65%nat;
  toBytes_tag : forall P,
      is0 C P = false -> hd x00 (toBytes C P) = x04;
  fromBytes_toBytes : forall P,
      is0 C P = false -> fromBytes C (toBytes C P) = Some P
}.

(** The group order of P-256. *)
Definition P256_order : Z :=
  0xffffffff00000000ffffffffffffffffbce6faada7179e84f3b9cac2fc632551.

(** Modelled from the spec: the entry points of [@noble/curves] that
    [crypto.ts] calls are not in the repository.  Section 4.1 of the protocol
    description gives their failures: a scalar must be nonzero and less than
    [n] ([InvalidScalar]); a point must decode to a curve point other than the
    point at infinity, and the point at infinity is never an output
    ([InvalidPoint]). *)
Module Noble.
Section Backend.
Variable C : Curve.
Local Open Scope result_scope.

(** [p256.ProjectivePoint.fromHex(bytes)] *)
Definition ProjectivePoint_fromHex (bytes : list byte) : result (point C) :=
  match fromBytes C bytes with
  | Some P => if is0 C P then Err InvalidPoint else Ok P
  | None => Err InvalidPoint
  end.

(** [P.multiply(k)] *)
Definition multiply (P : point C) (k : Z) : result (point C) :=
  if (1 <=? k) && (k <? order C) then Ok (mul C k P)
  else Err InvalidScalar.

(** [P.toRawBytes(false)] *)
Definition toRawBytes (P : point C) : result (list byte) :=
  if is0 C P then Err InvalidPoint else Ok (toBytes C P).

(** [p256.getPublicKey(k, false)] *)
Definition getPublicKey (k : Z) : result (list byte) :=
  P <- multiply (BASE C) k ;;
  toRawBytes P.
End Backend.
End Noble.

(** ** [src/lib/crypto.ts] *)

Module Crypto.
Import JS WebCrypto.

Record ECPoint : Type := { x : string; y : string }.

Record ECKeyPair : Type := {
  privateKey : string;
  publicKey : ECPoint
}.

Definition arrayBufferToHex (buffer : Uint8Array) : string :=
  "0x" ++ String.concat ""
    (map hex2 buffer).

Fixpoint hexToArrayBuffer_loop (fuel i : nat) (cleanHex : string)
    (bytes : Uint8Array) : Uint8Array :=
  match fuel with
  | O => bytes
  | S fuel' =>
      if (i <? String.length cleanHex)%nat then
        hexToArrayBuffer_loop fuel' (i + 2) cleanHex
          (u8_store bytes (i / 2)
             (store_number (parseInt16 (String_substr cleanHex i 2))))
      else bytes
  end.

Definition hexToArrayBuffer (hex : string) : Uint8Array :=
  let cleanHex := String_replace "0x" "" hex in
  let bytes := new_Uint8Array (String.length cleanHex / 2) in
  hexToArrayBuffer_loop (String.length cleanHex) 0 cleanHex bytes.

Definition generatePrivateKey : M string :=
  (let privateKeyBytes := new_Uint8Array 32 in
   privateKeyBytes <~ getRandomValues privateKeyBytes ;;
   ret (arrayBufferToHex privateKeyBytes))%M.

Definition generateBlind : M string := generatePrivateKey.

(** [Array.from(bytes).map(b => b.toString(16).padStart(2, '0')).join('')] *)
Definition hexOfBytes (bytes : Uint8Array) : string :=
  String.concat "" (map hex2 bytes).

(** [arr[0] !== 0x04 || arr.length !== 65] *)
Definition badFormat (arr : Uint8Array) : bool :=
  negb (match arr with
        | b :: _ => Byte.eqb b x04
        | [] => false
        end)
  || negb (List.length arr =? 65)%nat.

Section Backend.
Variable C : Curve.
Local Open Scope result_scope.

Definition privateKeyToPublicKey (privateKeyHex : string) : result ECPoint :=
  let cleanHex := String_replace "0x" "" privateKeyHex in
  privateKeyBigInt <- BigInt_0x cleanHex ;;
  publicKeyPoint <- Noble.getPublicKey C privateKeyBigInt ;;
  let publicKeyBytes := publicKeyPoint in
  if badFormat publicKeyBytes then Err MalformedEncoding
  else
    let xBytes := u8_slice publicKeyBytes 1 33 in
    let yBytes := u8_slice publicKeyBytes 33 65 in
    Ok {| x := "0x" ++ hexOfBytes xBytes; y := "0x" ++ hexOfBytes yBytes |}.

(** The body of [for (let i = 0; i < 32; i++)] in [performECDH]. *)
Definition coordinate_step (cleanXHex cleanYHex : string)
    (acc : Uint8Array * Uint8Array) (i : nat) : Uint8Array * Uint8Array :=
  (u8_store (fst acc) i
     (store_number (parseInt16 (String_substr cleanXHex (i * 2) 2))),
   u8_store (snd acc) i
     (store_number (parseInt16 (String_substr cleanYHex (i * 2) 2)))).

(** The [catch] around the body logs the error and throws it again. *)
Definition performECDH (privateKeyHex : string) (publicKeyPoint : ECPoint)
  : result ECPoint :=
  let cleanPrivateHex := String_replace "0x" "" privateKeyHex in
  privateKeyBigInt <- BigInt_0x cleanPrivateHex ;;
  let cleanXHex := String_replace "0x" "" (x publicKeyPoint) in
  let cleanYHex := String_replace "0x" "" (y publicKeyPoint) in
  let '(xBytes, yBytes) :=
    fold_left (coordinate_step cleanXHex cleanYHex) (seq 0 32)
              (new_Uint8Array 32, new_Uint8Array 32) in
  let publicKeyBytes := new_Uint8Array 65 in
  let publicKeyBytes := u8_store publicKeyBytes 0 x04 in
  publicKeyBytes <- u8_set publicKeyBytes xBytes 1 ;;
  publicKeyBytes <- u8_set publicKeyBytes yBytes 33 ;;
  P <- Noble.ProjectivePoint_fromHex C publicKeyBytes ;;
  resultPoint <- Noble.multiply C P privateKeyBigInt ;;
  resultBytes <- Noble.toRawBytes C resultPoint ;;
  let resultArray := resultBytes in
  if badFormat resultArray then Err MalformedEncoding
  else
    let resultXBytes := u8_slice resultArray 1 33 in
    let resultYBytes := u8_slice resultArray 33 65 in
    Ok {| x := "0x" ++ hexOfBytes resultXBytes;
          y := "0x" ++ hexOfBytes resultYBytes |}.

Definition scalarMultiplication (scalar : string) (P : ECPoint)
  : result ECPoint :=
  performECDH scalar P.

Definition calculateDbG (hsmPrivateKey blind : string) : result ECPoint :=
  blindPublicKey <- privateKeyToPublicKey blind ;;
  performECDH hsmPrivateKey blindPublicKey.

Definition generateECKeyPair : M ECKeyPair :=
  (let privateKeyBytes := new_Uint8Array 32 in
   privateKeyBytes <~ getRandomValues privateKeyBytes ;;
   let privateKey := arrayBufferToHex privateKeyBytes in
   publicKey <~ lift (privateKeyToPublicKey privateKey) ;;
   ret {| privateKey := privateKey; publicKey := publicKey |})%M.
End Backend.

Section Platform.
(** The platform's ECDH keys and
    [crypto.subtle.generateKey({name:'ECDH', namedCurve:'P-256'},
    extractable, usages)], which draws the key from the random source. *)
Variable ECCryptoKey : Type.
Variable generateKey_ECDH_P256 :
  bool -> list KeyUsage -> M (CryptoKeyPair ECCryptoKey).

Definition createPrivateKeyFromHex (privateKeyHex : string)
  : M ECCryptoKey :=
  (keyPair <~ generateKey_ECDH_P256 true [deriveKey; deriveBits] ;;
   ret (WebCrypto.privateKey keyPair))%M.
End Platform.

End Crypto.

(** ** The key-derivation callbacks of the demo page

    [deriveHMACKey] and [performValidatorECDH] read fields of the page state
    and write others; here they take the fields they read and return the
    fields they set, or [None] when they return early or catch a failure. *)

Module Demo.
Import JS.
Local Open Scope M_scope.

Definition falsy (s : string) : bool :=
  match s with
  | EmptyString => true
  | _ => false
  end.

(** Producer side; returns [(hkdfPrk, hmacKey)]. *)
Definition deriveHMACKey (hsmEcdhResult_x hkdfSalt hkdfInfo : string)
  : M (option (string * string)) :=
  if falsy hsmEcdhResult_x then ret None
  else
    try_catch
      (let ikm := Hkdf.hexToArrayBuffer hsmEcdhResult_x in
       result <~ Hkdf.hkdfWithSteps ikm hkdfSalt hkdfInfo 32 ;;
       ret (Hkdf.prkHex result, Hkdf.okmHex result)).

(** Validator side; returns [(validatorEcdhResult, validatorHmacKey)]. *)
Definition performValidatorECDH (C : Curve) (validatorPrivateKey : string)
    (dbPublicKey : Crypto.ECPoint) (hkdfSalt hkdfInfo : string)
  : M (option (Crypto.ECPoint * string)) :=
  if falsy validatorPrivateKey || falsy (Crypto.x dbPublicKey) then ret None
  else
    try_catch
      (result <~ lift (Crypto.performECDH C validatorPrivateKey dbPublicKey) ;;
       let ikm := Hkdf.hexToArrayBuffer (Crypto.x result) in
       derivedKey <~ Hkdf.hkdf ikm hkdfSalt hkdfInfo 32 ;;
       let hmacKey := Hkdf.arrayBufferToHex derivedKey in
       ret (result, hmacKey)).

End Demo.

(** ** RFC 5869, as the protocol description words it *)

Module RFC5869.
Import JS.

Definition HashLen : Z := 32.

(** [extract]: the key is the salt, or a zero-filled block of the hash's
    output length when the salt is empty. *)
Definition extract (salt ikm : list byte) : list byte :=
  SHA256.hmac (match salt with
               | [] => repeat x00 (Z.to_nat HashLen)
               | _ => salt
               end) ikm.

(** The single byte [i], for [i] up to 255. *)
Definition octet (i : nat) : byte :=
  match Byte.of_nat i with
  | Some b => b
  | None => x00
  end.

(** [T(0) = empty], [T(i) = HMAC(prk, T(i-1) || info || byte(i))]. *)
Fixpoint T (prk info : list byte) (i : nat) : list byte :=
  match i with
  | O => []
  | S j => SHA256.hmac prk (T prk info j ++ info ++ [octet i])
  end.

(** [T(1) || T(2) || ... || T(k)] *)
Definition T_upto (prk info : list byte) (k : nat) : list byte :=
  List.concat (map (T prk info) (seq 1 k)).

(** [expand]: fails when more than [255 * HashLen] bytes are asked for. *)
Definition expand (prk info : list byte) (length : Z) : result (list byte) :=
  if 255 * HashLen <? length then Err InvalidLength
  else
    let k := Z.to_nat (Hkdf.Math_ceil_div length HashLen) in
    Ok (firstn (Z.to_nat length) (T_upto prk info k)).

End RFC5869.

(** ** The loops, read as functions *)

Module Pure.
Import JS.

(** [count] rounds of the expand loop of [hkdf.ts] from counter [i]. *)
Fixpoint expand_iter (prk info : list byte) (count : nat) (i : Z)
    (t okm : list byte) : list byte :=
  match count with
  | O => okm
  | S c =>
      let t' := SHA256.hmac prk (t ++ info ++ [ToUint8 i]) in
      expand_iter prk info c (i + 1) t' (okm ++ t')
  end.

(** What step 2 of [hkdf] returns for a pseudorandom key. *)
Definition expand_of (prk info : list byte) (length : Z) : list byte :=
  u8_slice
    (expand_iter prk info (Z.to_nat (Hkdf.Math_ceil_div length 32)) 1 [] [])
    0 length.

(** The HMAC key of step 1, by the salt string. *)
Definition extract_key (salt : string) : list byte :=
  match salt with
  | EmptyString => repeat x00 32
  | _ => TextEncoder_encode salt
  end.

(** The key both [importKey] calls of [hkdf] produce from raw bytes. *)
Definition hmacKey (raw : list byte) : WebCrypto.CryptoKey :=
  {| WebCrypto.key_data := raw; WebCrypto.key_extractable := false;
     WebCrypto.key_usages := [WebCrypto.sign_usage] |}.

(** The [ECPoint] that [crypto.ts] builds from uncompressed point bytes. *)
Definition ECPoint_of_bytes (raw : list byte) : Crypto.ECPoint :=
  {| Crypto.x := "0x" ++ Crypto.hexOfBytes (u8_slice raw 1 33);
     Crypto.y := "0x" ++ Crypto.hexOfBytes (u8_slice raw 33 65) |}.

(** The first [k] bytes of the random source, and the source after them. *)
Definition drawn (w : World) (k : nat) : list byte := map w (seq 0 k).
Definition after (w : World) (k : nat) : World := fun i => w (i + k)%nat.

End Pure.

(** ** A small backend

    The integers modulo 7 as a group of prime order: the point [k * G] is
    the residue [k], encoded with [x = k] and [y = 7 - k]. *)

Module Z7.
Import JS.

Inductive pt : Type := R0 | R1 | R2 | R3 | R4 | R5 | R6.

Definition to_Z (P : pt) : Z :=
  match P with
  | R0 => 0 | R1 => 1 | R2 => 2 | R3 => 3 | R4 => 4 | R5 => 5 | R6 => 6
  end.

Definition of_Z (z : Z) : pt :=
  match z mod 7 with
  | 0 => R0 | 1 => R1 | 2 => R2 | 3 => R3 | 4 => R4 | 5 => R5 | _ => R6
  end.

Definition zero (P : pt) : bool :=
  match P with
  | R0 => true
  | _ => false
  end.

Definition smul (k : Z) (P : pt) : pt := of_Z (k * to_Z P).

Definition encode (P : pt) : list byte :=
  (x04 :: SHA256.be_bytes 32 (to_Z P) ++ SHA256.be_bytes 32 (7 - to_Z P))%list.

Definition decode (bs : list byte) : option pt :=
  match bs with
  | tag :: rest =>
      let xv := SHA256.be_value (firstn 32 rest) 0 in
      let yv := SHA256.be_value (skipn 32 rest) 0 in
      if Byte.eqb tag x04 && (List.length rest =? 64)%nat
         && (1 <=? xv) && (xv <? 7) && (yv =? 7 - xv)
      then Some (of_Z xv)
      else None
  | [] => None
  end.

Definition curve : Curve :=
  {| point := pt; order := 7; BASE := R1; is0 := zero; mul := smul;
     toBytes := encode; fromBytes := decode |}.

End Z7.

(** ** P-256

    The curve the repository computes on, in affine coordinates, as a
    backend the code can be run on.  Its group laws are not derived here:
    the properties that need them take them as [CurveLaws]. *)

Module P256.
Import JS.

Definition p : Z :=
  0xffffffff00000001000000000000000000000000ffffffffffffffffffffffff.
Definition a : Z := p - 3.
Definition b : Z :=
  0x5ac635d8aa3a93e7b3ebbd55769886bc651d06b0cc53b0f63bce3c3e27d2604b.
Definition Gx : Z :=
  0x6b17d1f2e12c4247f8bce6e563a440f277037d812deb33a0f4a13945d898c296.
Definition Gy : Z :=
  0x4fe342e2fe1a7f9b8ee7eb4a7c0f9e162bce33576b315ececbb6406837bf51f5.

(** The inverse modulo the prime [p]. *)
Definition inv (v : Z) : Z := Z.invmod v p.

(** An affine point, or the point at infinity. *)
Definition pt : Type := option (Z * Z).

Definition neg (P : pt) : pt :=
  match P with
  | Some (x1, y1) => Some (x1, (- y1) mod p)
  | None => None
  end.

Definition add (P Q : pt) : pt :=
  match P, Q with
  | None, _ => Q
  | _, None => P
  | Some (x1, y1), Some (x2, y2) =>
      if x1 =? x2 then
        if (y1 + y2) mod p =? 0 then None
        else
          let l := ((3 * x1 * x1 + a) * inv (2 * y1)) mod p in
          let x3 := (l * l - x1 - x2) mod p in
          Some (x3, (l * (x1 - x3) - y1) mod p)
      else
        let l := ((y2 - y1) * inv (x2 - x1)) mod p in
        let x3 := (l * l - x1 - x2) mod p in
        Some (x3, (l * (x1 - x3) - y1) mod p)
  end.

Fixpoint smul_pos (k : positive) (P : pt) : pt :=
  match k with
  | xH => P
  | xO k' => let Q := smul_pos k' P in add Q Q
  | xI k' => let Q := smul_pos k' P in add (add Q Q) P
  end.

Definition smul (k : Z) (P : pt) : pt :=
  match k with
  | Z0 => None
  | Z.pos k' => smul_pos k' P
  | Z.neg k' => neg (smul_pos k' P)
  end.

Definition on_curve (x1 y1 : Z) : bool :=
  (y1 * y1 - (x1 * x1 * x1 + a * x1 + b)) mod p =? 0.

Definition zero (P : pt) : bool :=
  match P with
  | None => true
  | Some _ => false
  end.

Definition encode (P : pt) : list byte :=
  match P with
  | Some (x1, y1) =>
      (x04 :: SHA256.be_bytes 32 x1 ++ SHA256.be_bytes 32 y1)%list
  | None => [x00]
  end.

Definition decode (bs : list byte) : option pt :=
  match bs with
  | tag :: rest =>
      let x1 := SHA256.be_value (firstn 32 rest) 0 in
      let y1 := SHA256.be_value (skipn 32 rest) 0 in
      if Byte.eqb tag x04 && (List.length rest =? 64)%nat
         && (x1 <? p) && (y1 <? p) && on_curve x1 y1
      then Some (Some (x1, y1))
      else None
  | [] => None
  end.

Definition curve : Curve :=
  {| point := pt; order := P256_order; BASE := Some (Gx, Gy); is0 := zero;
     mul := smul; toBytes := encode; fromBytes := decode |}.

End P256.

(** ** [src/lib/crypto.ts]: the WebCrypto key helpers *)

Module CryptoKeys.
Import JS WebCrypto.

Section Platform.
(** The platform's ECDH keys, with
    [crypto.subtle.exportKey('raw', key)] and
    [crypto.subtle.importKey('raw', bytes, {name:'ECDH', namedCurve:'P-256'},
    extractable, usages)]. *)
Variable ECCryptoKey : Type.
Variable exportKey_raw : ECCryptoKey -> M Uint8Array.
Variable importKey_raw_ECDH_P256 :
  Uint8Array -> bool -> list KeyUsage -> M ECCryptoKey.
Local Open Scope M_scope.

Definition extractPublicKeyCoordinates (publicKey : ECCryptoKey)
  : M Crypto.ECPoint :=
  rawKey <~ exportKey_raw publicKey ;;
  let keyBytes := rawKey in
  if Crypto.badFormat keyBytes then throw MalformedEncoding
  else
    let x := Crypto.arrayBufferToHex (u8_slice keyBytes 1 33) in
    let y := Crypto.arrayBufferToHex (u8_slice keyBytes 33 65) in
    ret {| Crypto.x := x; Crypto.y := y |}.

Definition createPublicKeyFromCoordinates (point : Crypto.ECPoint)
  : M ECCryptoKey :=
  let xBytes := Crypto.hexToArrayBuffer (Crypto.x point) in
  let yBytes := Crypto.hexToArrayBuffer (Crypto.y point) in
  let publicKeyBytes := new_Uint8Array 65 in
  let publicKeyBytes := u8_store publicKeyBytes 0 x04 in
  publicKeyBytes <~ lift (u8_set publicKeyBytes xBytes 1) ;;
  publicKeyBytes <~ lift (u8_set publicKeyBytes yBytes 33) ;;
  importKey_raw_ECDH_P256 publicKeyBytes false [].
End Platform.

End CryptoKeys.

(** ** The other protocol callbacks of the demo page

    As for [deriveHMACKey]: the fields read are arguments, the fields set are
    the result, [None] when the callback returns early or catches a
    failure. *)

Module DemoSteps.
Import JS.
Local Open Scope M_scope.

(** Step 1; returns the two key pairs (HSM, validator). *)
Definition generateKeys (C : Curve)
  : M (option (Crypto.ECKeyPair * Crypto.ECKeyPair)) :=
  try_catch
    (hsmKeyPair <~ Crypto.generateECKeyPair C ;;
     validatorKeyPair <~ Crypto.generateECKeyPair C ;;
     ret (hsmKeyPair, validatorKeyPair)).

(** Step 2; returns [blindedValidatorPublicKey]. *)
Definition applyBlinding (C : Curve) (blind : string)
    (validatorPublicKey : Crypto.ECPoint) : M (option Crypto.ECPoint) :=
  if Demo.falsy blind || Demo.falsy (Crypto.x validatorPublicKey) then ret None
  else
    try_catch
      (blindedKey <~ lift (Crypto.scalarMultiplication C blind
                             validatorPublicKey) ;;
       ret blindedKey).

(** Step 3; returns [hsmEcdhResult]. *)
Definition performHSMECDH (C : Curve) (hsmPrivateKey : string)
    (blindedValidatorPublicKey : Crypto.ECPoint) : M (option Crypto.ECPoint) :=
  if Demo.falsy hsmPrivateKey || Demo.falsy (Crypto.x blindedValidatorPublicKey)
  then ret None
  else
    try_catch
      (result <~ lift (Crypto.performECDH C hsmPrivateKey
                         blindedValidatorPublicKey) ;;
       ret result).

(** Step 5; returns [dbPublicKey]. *)
Definition generateDbG (C : Curve) (hsmPrivateKey blind : string)
  : M (option Crypto.ECPoint) :=
  if Demo.falsy hsmPrivateKey || Demo.falsy blind then ret None
  else
    try_catch
      (dbPoint <~ lift (Crypto.calculateDbG C hsmPrivateKey blind) ;;
       ret dbPoint).

End DemoSteps.

(** ** Shapes of text *)

Module Text.
Import JS.

(** A digit as [toString(16)] writes it. *)
Definition lowerHex (c : ascii) : bool :=
  let k := code c in
  ((48 <=? k) && (k <=? 57)) || ((97 <=? k) && (k <=? 102)).

Fixpoint allLowerHex (s : string) : bool :=
  match s with
  | EmptyString => true
  | String c s' => lowerHex c && allLowerHex s'
  end.

(** [0x] and then an even number of lower-case digits: the texts that
    [arrayBufferToHex] writes. *)
Definition canonical (s : string) : bool :=
  match s with
  | String "0" (String "x" t) =>
      allLowerHex t && Nat.even (String.length t)
  | _ => false
  end.

(** The sixteen of them. *)
Definition lowerDigits : list ascii :=
  ["0"; "1"; "2"; "3"; "4"; "5"; "6"; "7"; "8"; "9";
   "a"; "b"; "c"; "d"; "e"; "f"]%char.

(** [k] characters U+0000. *)
Definition NULs (k : nat) : string :=
  string_of_list_ascii (repeat Ascii.zero k).

End Text.

(** * Properties *)

(** ** Bytes and strings *)

Section JSFacts.
Import JS.

Lemma ToUint8_byte_val (b : byte) : ToUint8 (byte_val b) = b.
Proof. destruct b; reflexivity. Qed.

Lemma byte_val_range (b : byte) : 0 <= byte_val b < 256.
Proof.
  unfold byte_val. pose proof (Byte.to_N_bounded b) as H.
  lia.
Qed.

(** One byte is written as two digits, and [parseInt] reads them back. *)
Lemma hex_pair (b : byte) :
  exists h l,
    hex2 b = String h (String l EmptyString)
    /\ store_number (parseInt16 (String h (String l EmptyString))) = b
    /\ (exists v, hexAll (String h (String l EmptyString)) 0 = Some v
                  /\ v = byte_val b)
    /\ isWhiteSpace l = false.
Proof.
  destruct b; do 2 eexists; (split; [vm_compute; reflexivity|]);
    (split; [vm_compute; reflexivity|]);
    (split; [eexists; split; vm_compute; reflexivity | vm_compute; reflexivity]).
Qed.

Lemma append_empty_r (s : string) : s ++ "" = s.
Proof. induction s as [|c s IH]; simpl; [reflexivity | now rewrite IH]. Qed.

Lemma concat_empty_cons (x : string) (xs : list string) :
  String.concat "" (x :: xs) = x ++ String.concat "" xs.
Proof.
  destruct xs as [|y ys]; simpl.
  - now rewrite append_empty_r.
  - reflexivity.
Qed.

Lemma substring_all (s : string) : substring 0 (String.length s) s = s.
Proof. induction s as [|c s IH]; simpl; [reflexivity | now rewrite IH]. Qed.

(** [replace('0x', '')] takes the prefix off a prefixed string. *)
Lemma replace_0x_prefix (s : string) :
  String_replace "0x" "" (String "0" (String "x" s)) = s.
Proof.
  destruct s as [|c s]; simpl; [reflexivity|].
  now rewrite substring_all.
Qed.

End JSFacts.

(** ** Hexadecimal text and bytes *)

Section HexFacts.
Import JS.

Lemma hexOfBytes_cons (b : byte) (bs : list byte) :
  Crypto.hexOfBytes (b :: bs) = hex2 b ++ Crypto.hexOfBytes bs.
Proof. unfold Crypto.hexOfBytes. cbn [map]. apply concat_empty_cons. Qed.

Lemma hexOfBytes_length (bs : list byte) :
  String.length (Crypto.hexOfBytes bs) = (2 * List.length bs)%nat.
Proof.
  induction bs as [|b bs IH]; [reflexivity|].
  rewrite hexOfBytes_cons.
  destruct (hex_pair b) as (h & l & E & _). rewrite E.
  cbn [append String.length List.length]. rewrite IH. lia.
Qed.

Lemma substring_0_0 (s : string) : substring 0 0 s = "".
Proof. destruct s; reflexivity. Qed.

(** The two characters at offset [2k] are the digits of byte [k]. *)
Lemma substr_hexOfBytes (bs : list byte) :
  forall k b, nth_error bs k = Some b ->
    String_substr (Crypto.hexOfBytes bs) (2 * k) 2 = hex2 b.
Proof.
  unfold String_substr.
  induction bs as [|a bs IH]; intros k b Hk.
  - destruct k; discriminate.
  - rewrite hexOfBytes_cons.
    destruct (hex_pair a) as (h & l & E & _). rewrite E.
    destruct k as [|k].
    + injection Hk as <-. rewrite E. cbn [append Nat.mul substring].
      now rewrite substring_0_0.
    + replace (2 * S k)%nat with (S (S (2 * k))) by lia.
      cbn [append substring]. apply IH. exact Hk.
Qed.

Lemma u8_store_middle (a c : list byte) (z v : byte) :
  u8_store (a ++ z :: c)%list (List.length a) v = (a ++ v :: c)%list.
Proof.
  induction a as [|hd a IH]; cbn [List.app List.length u8_store].
  - reflexivity.
  - now rewrite IH.
Qed.

Lemma firstn_succ_nth (bs : list byte) (k : nat) (b : byte) :
  nth_error bs k = Some b ->
  firstn (S k) bs = (firstn k bs ++ [b])%list.
Proof.
  revert k. induction bs as [|a bs IH]; intros [|k] H; try discriminate.
  - injection H as <-. reflexivity.
  - cbn [firstn List.app]. f_equal. now apply IH.
Qed.

(** One step of either parsing loop: byte [k] is put in its place. *)
Lemma store_parsed (bs : list byte) (k : nat) :
  (k < List.length bs)%nat ->
  u8_store (firstn k bs ++ repeat x00 (List.length bs - k))%list k
    (store_number (parseInt16 (String_substr (Crypto.hexOfBytes bs) (2 * k) 2)))
  = (firstn (S k) bs ++ repeat x00 (List.length bs - S k))%list.
Proof.
  intros Hk.
  destruct (nth_error bs k) as [b|] eqn:Hb;
    [| apply nth_error_None in Hb; lia].
  rewrite (substr_hexOfBytes bs k b Hb).
  destruct (hex_pair b) as (h & l & E & P & _). rewrite E, P.
  replace (List.length bs - k)%nat with (S (List.length bs - S k)) by lia.
  cbn [repeat].
  assert (Hlen : List.length (firstn k bs) = k)
    by (rewrite length_firstn; lia).
  pose proof (u8_store_middle (firstn k bs)
                (repeat x00 (List.length bs - S k)) x00 b) as Hs.
  rewrite Hlen in Hs. rewrite Hs.
  rewrite (firstn_succ_nth bs k b Hb), <- app_assoc. reflexivity.
Qed.

Lemma hexToArrayBuffer_loop_spec (bs : list byte) :
  forall fuel k,
    (List.length bs - k <= fuel)%nat -> (k <= List.length bs)%nat ->
    Crypto.hexToArrayBuffer_loop fuel (2 * k) (Crypto.hexOfBytes bs)
      (firstn k bs ++ repeat x00 (List.length bs - k))%list = bs.
Proof.
  induction fuel as [|fuel IH]; intros k Hf Hk.
  - cbn [Crypto.hexToArrayBuffer_loop].
    replace k with (List.length bs) by lia.
    rewrite firstn_all, Nat.sub_diag. apply app_nil_r.
  - cbn [Crypto.hexToArrayBuffer_loop].
    rewrite hexOfBytes_length.
    destruct (2 * k <? 2 * List.length bs)%nat eqn:Hlt.
    + apply Nat.ltb_lt in Hlt.
      replace (2 * k / 2)%nat with k
        by (rewrite Nat.mul_comm, Nat.div_mul; lia).
      rewrite store_parsed by lia.
      replace (2 * k + 2)%nat with (2 * S k)%nat by lia.
      apply IH; lia.
    + apply Nat.ltb_ge in Hlt.
      replace k with (List.length bs) by lia.
      rewrite firstn_all, Nat.sub_diag. apply app_nil_r.
Qed.

Lemma Crypto_hex_roundtrip (bs : list byte) :
  Crypto.hexToArrayBuffer (Crypto.arrayBufferToHex bs) = bs.
Proof.
  unfold Crypto.hexToArrayBuffer, Crypto.arrayBufferToHex.
  change (String.concat "" (map _ bs)) with (Crypto.hexOfBytes bs).
  change ("0x" ++ Crypto.hexOfBytes bs)
    with (String "0" (String "x" (Crypto.hexOfBytes bs))).
  rewrite replace_0x_prefix. cbv zeta.
  rewrite hexOfBytes_length.
  replace (2 * List.length bs / 2)%nat with (List.length bs)
    by (rewrite Nat.mul_comm, Nat.div_mul; lia).
  pose proof (hexToArrayBuffer_loop_spec bs (2 * List.length bs) 0) as H.
  cbn [Nat.mul firstn List.app] in H. rewrite Nat.sub_0_r in H.
  apply H; lia.
Qed.

Lemma Hkdf_loop_same (fuel : nat) :
  forall i s bytes,
    Hkdf.hexToArrayBuffer_loop fuel i s bytes
    = Crypto.hexToArrayBuffer_loop fuel i s bytes.
Proof.
  induction fuel as [|fuel IH]; intros i s bytes;
    cbn [Hkdf.hexToArrayBuffer_loop Crypto.hexToArrayBuffer_loop];
    [reflexivity|].
  destruct (i <? String.length s)%nat; [apply IH | reflexivity].
Qed.

Lemma Hkdf_hexToArrayBuffer_same (s : string) :
  Hkdf.hexToArrayBuffer s = Crypto.hexToArrayBuffer s.
Proof. unfold Hkdf.hexToArrayBuffer. now rewrite Hkdf_loop_same. Qed.

End HexFacts.


(** ** Typed arrays *)

Section ArrayFacts.
Import JS.
Local Open Scope list_scope.

Lemma skipn_repeat_add {A} (v : A) (n k : nat) :
  skipn n (repeat v (n + k)) = repeat v k.
Proof. induction n as [|n IH]; [reflexivity | exact IH]. Qed.

(** [buf.set(a, 0)] on a fresh buffer. *)
Lemma u8_set_front (a : list byte) (k : nat) :
  u8_set (new_Uint8Array (List.length a + k)) a 0 = Ok (a ++ repeat x00 k).
Proof.
  unfold u8_set, new_Uint8Array. rewrite repeat_length.
  replace (0 + List.length a <=? List.length a + k)%nat with true
    by (symmetry; apply Nat.leb_le; lia).
  cbn [firstn List.app Nat.add]. now rewrite skipn_repeat_add.
Qed.

(** [buf.set(b, a.length)] behind what is already there. *)
Lemma u8_set_back (a b : list byte) (k : nat) :
  u8_set (a ++ repeat x00 (List.length b + k)) b (List.length a)
  = Ok (a ++ b ++ repeat x00 k).
Proof.
  unfold u8_set. rewrite length_app, repeat_length.
  replace (List.length a + List.length b
           <=? List.length a + (List.length b + k))%nat with true
    by (symmetry; apply Nat.leb_le; lia).
  rewrite firstn_app, firstn_all, Nat.sub_diag. cbn [firstn].
  rewrite app_nil_r, skipn_app, skipn_all2 by lia.
  replace (List.length a + List.length b - List.length a)%nat
    with (List.length b) by lia.
  now rewrite skipn_repeat_add.
Qed.

Lemma u8_store_last (a : list byte) (z v : byte) :
  u8_store (a ++ [z]) (List.length (a ++ [z]) - 1) v = a ++ [v].
Proof.
  rewrite length_app. cbn [List.length].
  replace (List.length a + 1 - 1)%nat with (List.length a) by lia.
  apply u8_store_middle.
Qed.

(** [slice(0, len)] of an array that is long enough. *)
Lemma u8_slice_prefix (arr : list byte) (len : Z) :
  0 <= len -> (Z.to_nat len <= List.length arr)%nat ->
  u8_slice arr 0 len = firstn (Z.to_nat len) arr.
Proof.
  intros H0 Hl. unfold u8_slice, rel_index.
  replace (0 <? 0) with false by reflexivity.
  replace (len <? 0) with false by (symmetry; apply Z.ltb_ge; lia).
  cbn [Z.to_nat Nat.min skipn].
  rewrite Nat.min_l, Nat.sub_0_r by lia. reflexivity.
Qed.

Lemma u8_slice_length (arr : list byte) (len : Z) :
  0 <= len -> (Z.to_nat len <= List.length arr)%nat ->
  List.length (u8_slice arr 0 len) = Z.to_nat len.
Proof.
  intros H0 Hl. rewrite u8_slice_prefix, length_firstn by assumption. lia.
Qed.

End ArrayFacts.

(** ** SHA-256 and HMAC give 32 bytes *)

Section DigestFacts.
Import JS.

Lemma be_bytes_length (k : nat) : forall v, List.length (SHA256.be_bytes k v) = k.
Proof.
  induction k as [|k IH]; intros v; cbn [SHA256.be_bytes]; [reflexivity|].
  rewrite length_app, IH. cbn [List.length]. lia.
Qed.

Lemma sha256_length (msg : list byte) : List.length (SHA256.sha256 msg) = 32%nat.
Proof.
  unfold SHA256.sha256.
  destruct (SHA256.blocks _ SHA256.H0 (SHA256.pad msg))
    as [[[[[[[a b] c] d] e] f] g] h].
  unfold SHA256.digest_bytes.
  rewrite !length_app, !be_bytes_length. reflexivity.
Qed.

Lemma hmac_length (key data : list byte) :
  List.length (SHA256.hmac key data) = 32%nat.
Proof. unfold SHA256.hmac. apply sha256_length. Qed.

Lemma hmac_nonempty (key data : list byte) : SHA256.hmac key data <> [].
Proof.
  intros E. pose proof (hmac_length key data) as H. rewrite E in H. discriminate.
Qed.

End DigestFacts.

(** ** The HKDF code, run *)

Section HkdfFacts.
Import JS WebCrypto.
Local Open Scope list_scope.

Lemma importKey_nonempty (raw : list byte) (w : World) :
  raw <> [] ->
  importKey_raw_HMAC raw false [sign_usage] w = (Ok (Pure.hmacKey raw), w).
Proof. destruct raw; [congruence | reflexivity]. Qed.

Lemma sign_hmacKey (raw data : list byte) (w : World) :
  sign_HMAC (Pure.hmacKey raw) data w = (Ok (SHA256.hmac raw data), w).
Proof. reflexivity. Qed.

Lemma TextEncoder_encode_nil (s : string) :
  TextEncoder_encode s = [] <-> s = EmptyString.
Proof.
  split; [| intros ->; reflexivity].
  destruct s as [|c s]; [reflexivity|].
  cbn [TextEncoder_encode]. unfold utf8_unit.
  destruct (code c <? 128); discriminate.
Qed.

(** The key of the extract step, by the salt string. *)
Lemma extract_key_by_salt (salt : string) :
  (if (0 <? List.length (TextEncoder_encode salt))%nat
   then TextEncoder_encode salt else new_Uint8Array 32)
  = Pure.extract_key salt
  /\ Pure.extract_key salt <> [].
Proof.
  destruct salt as [|c s]; [split; [reflexivity | discriminate]|].
  unfold Pure.extract_key.
  destruct (TextEncoder_encode (String c s)) as [|b bs] eqn:E.
  - apply TextEncoder_encode_nil in E. discriminate.
  - split; [reflexivity | discriminate].
Qed.

(** One round: the input buffer is [t || info || byte(i)], the new [okm]
    buffer is [okm || t]. *)
Ltac run_round t info okm :=
  unfold bindM, lift;
  rewrite <- Nat.add_assoc, u8_set_front; cbv beta iota;
  rewrite u8_set_back; cbv beta iota; cbn [repeat];
  rewrite (app_assoc t info), u8_store_last, <- app_assoc;
  rewrite sign_hmacKey; cbv beta iota;
  rewrite u8_set_front; cbv beta iota;
  match goal with
  | |- context [u8_set (okm ++ repeat x00 (List.length ?t')) ?t' _] =>
      let H := fresh in
      pose proof (u8_set_back okm t' 0) as H;
      rewrite Nat.add_0_r in H; rewrite H; clear H
  end;
  cbv beta iota; cbn [repeat]; rewrite app_nil_r.

Lemma hkdf_loop_run (prk info : list byte) (n : Z) :
  forall fuel i t okm w,
    (Z.to_nat (n - i + 1) <= fuel)%nat ->
    Hkdf.hkdf_loop fuel i n (Pure.hmacKey prk) info t okm w
    = (Ok (Pure.expand_iter prk info (Z.to_nat (n - i + 1)) i t okm), w).
Proof.
  induction fuel as [|fuel IH]; intros i t okm w Hf;
    cbn [Hkdf.hkdf_loop].
  - replace (Z.to_nat (n - i + 1)) with 0%nat by lia. reflexivity.
  - destruct (i <=? n) eqn:Hi.
    + apply Z.leb_le in Hi.
      replace (Z.to_nat (n - i + 1)) with (S (Z.to_nat (n - (i + 1) + 1)))
        by lia.
      cbn [Pure.expand_iter].
      run_round t info okm. apply IH. lia.
    + apply Z.leb_gt in Hi.
      replace (Z.to_nat (n - i + 1)) with 0%nat by lia. reflexivity.
Qed.

Lemma hkdfWithSteps_loop_run (prk info : list byte) (n : Z) :
  forall fuel i t okm w,
    (Z.to_nat (n - i + 1) <= fuel)%nat ->
    Hkdf.hkdfWithSteps_loop fuel i n (Pure.hmacKey prk) info t okm w
    = (Ok (Pure.expand_iter prk info (Z.to_nat (n - i + 1)) i t okm), w).
Proof.
  induction fuel as [|fuel IH]; intros i t okm w Hf;
    cbn [Hkdf.hkdfWithSteps_loop].
  - replace (Z.to_nat (n - i + 1)) with 0%nat by lia. reflexivity.
  - destruct (i <=? n) eqn:Hi.
    + apply Z.leb_le in Hi.
      replace (Z.to_nat (n - i + 1)) with (S (Z.to_nat (n - (i + 1) + 1)))
        by lia.
      cbn [Pure.expand_iter].
      run_round t info okm. apply IH. lia.
    + apply Z.leb_gt in Hi.
      replace (Z.to_nat (n - i + 1)) with 0%nat by lia. reflexivity.
Qed.

(** [hkdf] never rejects and never touches the random source: its result is
    the expansion of [PRK = HMAC(key, ikm)]. *)
Lemma hkdf_run (ikm : list byte) (salt info : string) (length : Z) (w : World) :
  Hkdf.hkdf ikm salt info length w
  = (Ok (Pure.expand_of (SHA256.hmac (Pure.extract_key salt) ikm)
           (TextEncoder_encode info) length), w).
Proof.
  unfold Hkdf.hkdf.
  destruct (extract_key_by_salt salt) as [-> Hne].
  unfold bindM at 1. rewrite (importKey_nonempty _ w Hne).
  unfold bindM at 1. rewrite sign_hmacKey.
  unfold bindM at 1.
  rewrite (importKey_nonempty _ w (hmac_nonempty _ _)).
  unfold bindM at 1.
  rewrite hkdf_loop_run by lia.
  replace (Hkdf.Math_ceil_div length 32 - 1 + 1)
    with (Hkdf.Math_ceil_div length 32) by lia.
  reflexivity.
Qed.

Lemma hkdfWithSteps_run (ikm : list byte) (salt info : string) (length : Z)
    (w : World) :
  let prk := SHA256.hmac (Pure.extract_key salt) ikm in
  let okm := Pure.expand_of prk (TextEncoder_encode info) length in
  Hkdf.hkdfWithSteps ikm salt info length w
  = (Ok {| Hkdf.prk := prk; Hkdf.okm := okm;
           Hkdf.prkHex := Hkdf.arrayBufferToHex prk;
           Hkdf.okmHex := Hkdf.arrayBufferToHex okm |}, w).
Proof.
  intros prk okm. unfold Hkdf.hkdfWithSteps.
  destruct (extract_key_by_salt salt) as [-> Hne].
  unfold bindM at 1. rewrite (importKey_nonempty _ w Hne).
  unfold bindM at 1. rewrite sign_hmacKey.
  unfold bindM at 1.
  rewrite (importKey_nonempty _ w (hmac_nonempty _ _)).
  unfold bindM at 1.
  rewrite hkdfWithSteps_loop_run by lia.
  replace (Hkdf.Math_ceil_div length 32 - 1 + 1)
    with (Hkdf.Math_ceil_div length 32) by lia.
  reflexivity.
Qed.

End HkdfFacts.


(** ** The expand iteration *)

Section ExpandFacts.
Import JS.
Local Open Scope list_scope.

(** [Math.ceil(a / 32)] is the least [n] with [32 * n >= a]. *)
Lemma Math_ceil_div_32 (a : Z) :
  let n := Hkdf.Math_ceil_div a 32 in
  a <= 32 * n < a + 32.
Proof.
  unfold Hkdf.Math_ceil_div.
  pose proof (Z.div_mod (- a) 32 ltac:(lia)) as H.
  pose proof (Z.mod_pos_bound (- a) 32 ltac:(lia)) as B.
  cbv zeta. lia.
Qed.

Lemma expand_iter_length (prk info : list byte) :
  forall count i t okm,
    List.length (Pure.expand_iter prk info count i t okm)
    = (List.length okm + 32 * count)%nat.
Proof.
  induction count as [|c IH]; intros i t okm; cbn [Pure.expand_iter].
  - lia.
  - rewrite IH, length_app, hmac_length. lia.
Qed.

(** Step 2 returns exactly [length] bytes, whatever the length. *)
Lemma expand_of_length (prk info : list byte) (length : Z) :
  0 <= length ->
  List.length (Pure.expand_of prk info length) = Z.to_nat length.
Proof.
  intros H0. unfold Pure.expand_of.
  pose proof (Math_ceil_div_32 length) as Hc. cbv zeta in Hc.
  apply u8_slice_length; [assumption|].
  rewrite expand_iter_length. cbn [List.length]. lia.
Qed.

Lemma expand_of_prefix (prk info : list byte) (length : Z) :
  0 <= length ->
  Pure.expand_of prk info length
  = firstn (Z.to_nat length)
      (Pure.expand_iter prk info (Z.to_nat (Hkdf.Math_ceil_div length 32))
         1 [] []).
Proof.
  intros H0. unfold Pure.expand_of.
  pose proof (Math_ceil_div_32 length) as Hc. cbv zeta in Hc.
  apply u8_slice_prefix; [assumption|].
  rewrite expand_iter_length. cbn [List.length]. lia.
Qed.

(** The counter byte of the code is the single byte [i] up to 255. *)
Lemma octet_ToUint8 (i : nat) :
  (i <= 255)%nat -> RFC5869.octet i = ToUint8 (Z.of_nat i).
Proof.
  intros H.
  do 256 (destruct i as [|i]; [reflexivity|]).
  lia.
Qed.

Lemma T_upto_succ (prk info : list byte) (k : nat) :
  RFC5869.T_upto prk info (S k)
  = RFC5869.T_upto prk info k ++ RFC5869.T prk info (S k).
Proof.
  unfold RFC5869.T_upto.
  rewrite seq_S, map_app, concat_app.
  cbn [map List.concat Nat.add]. now rewrite app_nil_r.
Qed.

(** From round [k] on, the loop extends [T(1) || ... || T(k)]. *)
Lemma expand_iter_T (prk info : list byte) :
  forall count k,
    (k + count <= 255)%nat ->
    Pure.expand_iter prk info count (Z.of_nat k + 1)
      (RFC5869.T prk info k) (RFC5869.T_upto prk info k)
    = RFC5869.T_upto prk info (k + count).
Proof.
  induction count as [|c IH]; intros k Hk; cbn [Pure.expand_iter].
  - now rewrite Nat.add_0_r.
  - replace (Z.of_nat k + 1) with (Z.of_nat (S k)) by lia.
    rewrite <- octet_ToUint8 by lia.
    change (SHA256.hmac prk (RFC5869.T prk info k ++ info ++ [RFC5869.octet (S k)]))
      with (RFC5869.T prk info (S k)).
    rewrite <- T_upto_succ.
    rewrite IH by lia. f_equal. lia.
Qed.

Lemma extract_key_RFC (salt : string) (ikm : list byte) :
  SHA256.hmac (Pure.extract_key salt) ikm
  = RFC5869.extract (TextEncoder_encode salt) ikm.
Proof.
  unfold RFC5869.extract.
  destruct (extract_key_by_salt salt) as [E _].
  destruct salt as [|c s]; [reflexivity|].
  destruct (TextEncoder_encode (String c s)) eqn:En.
  - apply TextEncoder_encode_nil in En. discriminate.
  - unfold Pure.extract_key. now rewrite En.
Qed.

(** Within the bound of RFC 5869 the code's step 2 is [expand]. *)
Lemma expand_of_RFC (prk info : list byte) (length : Z) :
  0 <= length <= 255 * 32 ->
  RFC5869.expand prk info length = Ok (Pure.expand_of prk info length).
Proof.
  intros H. unfold RFC5869.expand, RFC5869.HashLen.
  replace (255 * 32 <? length) with false by (symmetry; apply Z.ltb_ge; lia).
  rewrite expand_of_prefix by lia.
  pose proof (Math_ceil_div_32 length) as Hc. cbv zeta in Hc.
  pose proof (expand_iter_T prk info
                (Z.to_nat (Hkdf.Math_ceil_div length 32)) 0) as HT.
  cbn [Z.of_nat Z.add RFC5869.T Nat.add] in HT.
  rewrite <- HT by lia. reflexivity.
Qed.

End ExpandFacts.


(** ** The small backend is a backend *)

Section Z7Facts.
Import JS.

Lemma Z7_to_of (z : Z) : Z7.to_Z (Z7.of_Z z) = z mod 7.
Proof.
  unfold Z7.of_Z.
  pose proof (Z.mod_pos_bound z 7 ltac:(lia)) as B.
  assert (z mod 7 = 0 \/ z mod 7 = 1 \/ z mod 7 = 2 \/ z mod 7 = 3
          \/ z mod 7 = 4 \/ z mod 7 = 5 \/ z mod 7 = 6) as H by lia.
  decompose [or] H; clear H;
    match goal with E : z mod 7 = _ |- _ => rewrite E end; reflexivity.
Qed.

Lemma Z7_of_mod (z : Z) : Z7.of_Z (z mod 7) = Z7.of_Z z.
Proof. unfold Z7.of_Z. now rewrite Z.mod_mod by lia. Qed.

Lemma Z7_laws : CurveLaws Z7.curve.
Proof.
  constructor; cbn [point order BASE is0 mul toBytes fromBytes Z7.curve].
  - reflexivity.
  - intros a b P. unfold Z7.smul. rewrite Z7_to_of.
    rewrite <- Z7_of_mod, Z.mul_mod_idemp_r, Z7_of_mod by lia.
    f_equal. ring.
  - intros k P Hk HP.
    assert (k = 1 \/ k = 2 \/ k = 3 \/ k = 4 \/ k = 5 \/ k = 6) as H by lia.
    destruct P; try discriminate;
      decompose [or] H; subst k; reflexivity.
  - intros P _. unfold Z7.encode.
    cbn [List.length]. rewrite length_app, !be_bytes_length. reflexivity.
  - reflexivity.
  - intros P HP. destruct P; try discriminate; vm_compute; reflexivity.
Qed.

End Z7Facts.

(** ** The curve code, run on encoded points *)

Section CurveFacts.
Import JS.
Variable C : Curve.
Hypothesis laws : CurveLaws C.

Lemma coordinates_parsed (xs ys : list byte) :
  List.length ys = List.length xs ->
  forall count k,
    (k + count = List.length xs)%nat ->
    fold_left
      (Crypto.coordinate_step (Crypto.hexOfBytes xs) (Crypto.hexOfBytes ys))
      (seq k count)
      ((firstn k xs ++ repeat x00 (List.length xs - k))%list,
       (firstn k ys ++ repeat x00 (List.length ys - k))%list)
    = (xs, ys).
Proof.
  intros Hy.
  induction count as [|c IH]; intros k Hk; cbn [seq fold_left].
  - replace k with (List.length xs) by lia.
    rewrite Hy, Nat.sub_diag, firstn_all, (firstn_all2 ys) by lia.
    cbn [repeat]. now rewrite !app_nil_r.
  - unfold Crypto.coordinate_step at 2. cbn [fst snd].
    rewrite (Nat.mul_comm k 2), !store_parsed by lia.
    apply IH. lia.
Qed.

(** Uncompressed point bytes are the tag and two 32-byte coordinates. *)
Lemma raw_point_split (raw : list byte) :
  List.length raw = 65%nat -> hd x00 raw = x04 ->
  (raw = x04 :: u8_slice raw 1 33 ++ u8_slice raw 33 65)%list
  /\ List.length (u8_slice raw 1 33) = 32%nat
  /\ List.length (u8_slice raw 33 65) = 32%nat.
Proof.
  intros Hl Ht. unfold u8_slice. rewrite Hl.
  change (rel_index 65 1) with 1%nat.
  change (rel_index 65 33) with 33%nat.
  change (rel_index 65 65) with 65%nat.
  change (33 - 1)%nat with 32%nat. change (65 - 33)%nat with 32%nat.
  destruct raw as [|t rest]; [discriminate|].
  cbn [hd] in Ht. subst t. cbn [List.length] in Hl.
  change (skipn 1 (x04 :: rest)) with rest.
  change (skipn 33 (x04 :: rest)) with (skipn 32 rest).
  assert (Hs : List.length (skipn 32 rest) = 32%nat)
    by (rewrite length_skipn; lia).
  repeat split.
  - f_equal. rewrite (firstn_all2 (skipn 32 rest)) by lia.
    now rewrite firstn_skipn.
  - rewrite length_firstn. lia.
  - rewrite length_firstn. lia.
Qed.

Lemma public_bytes_built (xs ys : list byte) :
  List.length xs = 32%nat -> List.length ys = 32%nat ->
  u8_set (u8_store (new_Uint8Array 65) 0 x04) xs 1
  = Ok (x04 :: xs ++ repeat x00 32)%list
  /\ u8_set (x04 :: xs ++ repeat x00 32)%list ys 33
     = Ok (x04 :: xs ++ ys)%list.
Proof.
  intros Hx Hy. split.
  - change (u8_store (new_Uint8Array 65) 0 x04) with (x04 :: repeat x00 64).
    unfold u8_set. cbn [List.length]. rewrite repeat_length, Hx.
    change (1 + 32 <=? S 64)%nat with true. cbv iota.
    change (firstn 1 (x04 :: repeat x00 64)) with [x04].
    change (skipn (1 + 32) (x04 :: repeat x00 64)) with (repeat x00 32).
    reflexivity.
  - unfold u8_set. cbn [List.length]. rewrite length_app, repeat_length, Hx, Hy.
    change (33 + 32 <=? S (32 + 32))%nat with true. cbv iota.
    change 33%nat with (S 32) at 1. rewrite firstn_cons.
    rewrite firstn_app, Hx, Nat.sub_diag, firstn_O, app_nil_r.
    rewrite (firstn_all2 xs) by lia.
    rewrite skipn_all2
      by (cbn [List.length]; rewrite length_app, repeat_length, Hx; cbn; lia).
    now rewrite app_nil_r.
Qed.

Lemma ECPoint_of_bytes_x (raw : list byte) :
  Crypto.x (Pure.ECPoint_of_bytes raw)
  = String "0" (String "x" (Crypto.hexOfBytes (u8_slice raw 1 33))).
Proof. reflexivity. Qed.

Lemma ECPoint_of_bytes_y (raw : list byte) :
  Crypto.y (Pure.ECPoint_of_bytes raw)
  = String "0" (String "x" (Crypto.hexOfBytes (u8_slice raw 33 65))).
Proof. reflexivity. Qed.

Lemma badFormat_raw (raw : list byte) :
  List.length raw = 65%nat -> hd x00 raw = x04 -> Crypto.badFormat raw = false.
Proof.
  intros Hl Ht. unfold Crypto.badFormat. rewrite Hl.
  destruct raw as [|t rest]; [discriminate|]. cbn [hd] in Ht. now subst t.
Qed.

(** [performECDH] on the coordinates of a nonzero point [P] and a scalar text
    that reads as [k] in [1, n-1] returns the coordinates of [k * P]. *)
Lemma performECDH_on_point (kh : string) (k : Z) (P : point C) :
  BigInt_0x (String_replace "0x" "" kh) = Ok k ->
  1 <= k < order C ->
  is0 C P = false ->
  Crypto.performECDH C kh (Pure.ECPoint_of_bytes (toBytes C P))
  = Ok (Pure.ECPoint_of_bytes (toBytes C (mul C k P))).
Proof.
  intros Hk Hr HP. unfold Crypto.performECDH.
  rewrite Hk. cbn [bindR].
  rewrite ECPoint_of_bytes_x, ECPoint_of_bytes_y, !replace_0x_prefix.
  destruct (raw_point_split (toBytes C P)
              (toBytes_length C laws P HP) (toBytes_tag C laws P HP))
    as (Hraw & Hx & Hy).
  pose proof (coordinates_parsed _ _ (eq_trans Hy (eq_sym Hx)) 32 0) as Hc.
  rewrite Hx, Hy in Hc. cbn [firstn Nat.sub List.app] in Hc.
  change (repeat x00 32) with (new_Uint8Array 32) in Hc.
  unfold Uint8Array in *. rewrite Hc by reflexivity.
  destruct (public_bytes_built _ _ Hx Hy) as [-> Hb]. cbn [bindR].
  rewrite Hb. cbn [bindR].
  rewrite <- Hraw.
  unfold Noble.ProjectivePoint_fromHex.
  rewrite (fromBytes_toBytes C laws P HP), HP. cbn [bindR].
  unfold Noble.multiply.
  replace ((1 <=? k) && (k <? order C)) with true
    by (symmetry; apply andb_true_iff; split;
        [apply Z.leb_le | apply Z.ltb_lt]; lia).
  cbn [bindR]. unfold Noble.toRawBytes.
  pose proof (mul_nonzero C laws k P Hr HP) as HQ.
  rewrite HQ. cbn [bindR].
  rewrite badFormat_raw
    by (first [apply (toBytes_length C laws) | apply (toBytes_tag C laws)];
        exact HQ).
  reflexivity.
Qed.

Lemma privateKeyToPublicKey_on (kh : string) (k : Z) :
  BigInt_0x (String_replace "0x" "" kh) = Ok k ->
  1 <= k < order C ->
  Crypto.privateKeyToPublicKey C kh
  = Ok (Pure.ECPoint_of_bytes (toBytes C (mul C k (BASE C)))).
Proof.
  intros Hk Hr. unfold Crypto.privateKeyToPublicKey.
  rewrite Hk. cbn [bindR].
  unfold Noble.getPublicKey, Noble.multiply.
  replace ((1 <=? k) && (k <? order C)) with true
    by (symmetry; apply andb_true_iff; split;
        [apply Z.leb_le | apply Z.ltb_lt]; lia).
  cbn [bindR]. unfold Noble.toRawBytes.
  pose proof (mul_nonzero C laws k _ Hr (BASE_nonzero C laws)) as HQ.
  rewrite HQ. cbn [bindR]. cbv zeta.
  rewrite badFormat_raw
    by (first [apply (toBytes_length C laws) | apply (toBytes_tag C laws)];
        exact HQ).
  reflexivity.
Qed.

(** A scalar text that reads as a number is not the empty string. *)
Lemma scalar_text_nonempty (kh : string) (k : Z) :
  BigInt_0x (String_replace "0x" "" kh) = Ok k -> Demo.falsy kh = false.
Proof. destruct kh; [discriminate | reflexivity]. Qed.

End CurveFacts.


(** ** The text of a drawn scalar *)

Section ScalarTextFacts.
Import JS.

Lemma trimEnd_hexOfBytes (bs : list byte) :
  trimEnd (Crypto.hexOfBytes bs) = Crypto.hexOfBytes bs.
Proof.
  induction bs as [|b bs IH]; [reflexivity|].
  rewrite hexOfBytes_cons.
  destruct (hex_pair b) as (h & l & E & _ & _ & Hl). rewrite E.
  cbn [append trimEnd]. rewrite IH.
  destruct (Crypto.hexOfBytes bs); [rewrite Hl|]; reflexivity.
Qed.

Lemma hexAll_append (s1 s2 : string) :
  forall acc v, hexAll s1 acc = Some v -> hexAll (s1 ++ s2) acc = hexAll s2 v.
Proof.
  induction s1 as [|c s1 IH]; intros acc v H; cbn [hexAll append] in *.
  - now injection H as <-.
  - destruct (hexDigitValue c); [eauto | discriminate].
Qed.

Lemma hexAll_pair_acc (h l : ascii) (v : Z) :
  hexAll (String h (String l EmptyString)) 0 = Some v ->
  0 <= v < 256 ->
  forall acc, hexAll (String h (String l EmptyString)) acc = Some (256 * acc + v).
Proof.
  cbn [hexAll]. intros H Hv acc.
  destruct (hexDigitValue h) as [dh|]; [|discriminate].
  destruct (hexDigitValue l) as [dl|]; [|discriminate].
  injection H as <-. f_equal. destruct dh; lia.
Qed.

(** Read as a number, the hexadecimal text of bytes is their big-endian
    value. *)
Lemma hexAll_hexOfBytes (bs : list byte) :
  forall acc,
    hexAll (Crypto.hexOfBytes bs) acc = Some (SHA256.be_value bs acc).
Proof.
  induction bs as [|b bs IH]; intros acc; [reflexivity|].
  rewrite hexOfBytes_cons.
  destruct (hex_pair b) as (h & l & E & _ & (v & Hv & ->) & _). rewrite E.
  rewrite (hexAll_append _ _ acc (256 * acc + byte_val b)).
  - cbn [SHA256.be_value]. apply IH.
  - apply hexAll_pair_acc; [exact Hv | apply byte_val_range].
Qed.

Lemma be_value_bound (bs : list byte) :
  forall acc, 0 <= acc ->
    256 ^ Z.of_nat (List.length bs) * acc
    <= SHA256.be_value bs acc
    < 256 ^ Z.of_nat (List.length bs) * (acc + 1).
Proof.
  induction bs as [|b bs IH]; intros acc Ha.
  - cbn [SHA256.be_value List.length Z.of_nat]. lia.
  - cbn [SHA256.be_value List.length].
    pose proof (byte_val_range b) as Hb.
    pose proof (IH (256 * acc + byte_val b) ltac:(lia)) as H.
    rewrite Nat2Z.inj_succ, Z.pow_succ_r by lia.
    assert (0 < 256 ^ Z.of_nat (List.length bs)) by (apply Z.pow_pos_nonneg; lia).
    nia.
Qed.

(** What [BigInt] reads from the text of a non-empty byte string. *)
Lemma scalar_of_hex_text (bs : list byte) :
  bs <> [] ->
  BigInt_0x (String_replace "0x" "" (Crypto.arrayBufferToHex bs))
  = Ok (SHA256.be_value bs 0).
Proof.
  intros Hne. unfold Crypto.arrayBufferToHex.
  change (String.concat "" (map hex2 bs)) with (Crypto.hexOfBytes bs).
  change ("0x" ++ Crypto.hexOfBytes bs)
    with (String "0" (String "x" (Crypto.hexOfBytes bs))).
  rewrite replace_0x_prefix. unfold BigInt_0x.
  rewrite trimEnd_hexOfBytes.
  pose proof (hexAll_hexOfBytes bs 0) as HA.
  pose proof (hexOfBytes_length bs) as Hl.
  destruct (Crypto.hexOfBytes bs) eqn:E.
  - destruct bs; [congruence | discriminate].
  - now rewrite HA.
Qed.

Lemma drawn_length (w : World) (k : nat) : List.length (Pure.drawn w k) = k.
Proof. unfold Pure.drawn. now rewrite length_map, length_seq. Qed.

Lemma generatePrivateKey_run (w : World) :
  Crypto.generatePrivateKey w
  = (Ok (Crypto.arrayBufferToHex (Pure.drawn w 32)), Pure.after w 32).
Proof. reflexivity. Qed.

End ScalarTextFacts.


(** * The claims *)

Section Claims.
Import JS.

(** ** C6: hexadecimal round trip *)

(** C6. For every byte string [b], decoding the hexadecimal text of [b]
    gives [b] back: [hexToArrayBuffer(arrayBufferToHex(b)) = b], for the
    functions of [crypto.ts] and for their copies in [hkdf.ts]. *)
Theorem hexToArrayBuffer_arrayBufferToHex (b : list byte) :
  Crypto.hexToArrayBuffer (Crypto.arrayBufferToHex b) = b
  /\ Hkdf.hexToArrayBuffer (Hkdf.arrayBufferToHex b) = b.
Proof.
  split.
  - apply Crypto_hex_roundtrip.
  - rewrite Hkdf_hexToArrayBuffer_same. apply Crypto_hex_roundtrip.
Qed.

(** ** C5: the extract step *)

(** C5. In [hkdf] and in [hkdfWithSteps] the extract step computes
    [PRK = HMAC-SHA256(key, ikm)], where the key is the UTF-8 bytes of the
    salt when the salt is a non-empty string and 32 zero bytes when it is
    the empty string: [hkdfWithSteps] returns this PRK, and what [hkdf]
    returns is the expansion of this PRK. *)
Theorem extract_step (ikm : list byte) (salt info : string) (length : Z)
    (w : World) :
  let key := match salt with
             | EmptyString => repeat x00 32
             | _ => TextEncoder_encode salt
             end in
  let PRK := SHA256.hmac key ikm in
  (exists r, Hkdf.hkdfWithSteps ikm salt info length w = (Ok r, w)
             /\ Hkdf.prk r = PRK)
  /\ Hkdf.hkdf ikm salt info length w
     = (Ok (Pure.expand_of PRK (TextEncoder_encode info) length), w).
Proof.
  intros key PRK. split.
  - eexists. split; [apply hkdfWithSteps_run | reflexivity].
  - apply hkdf_run.
Qed.

(** ** C4: the expand step *)

(** C4. For [1 <= length <= 255 * 32] the bytes [hkdf] returns are the
    expand iteration of RFC 5869 over the PRK of the extract step:
    [T(0)] empty, [T(i) = HMAC-SHA256(PRK, T(i-1) || info || byte(i))] for
    [i] from 1 to [ceil(length / 32)], and [T(1) || T(2) || ...] cut to
    exactly [length] bytes. *)
Theorem hkdf_expand_is_RFC5869 (ikm : list byte) (salt info : string)
    (length : Z) (w : World) :
  1 <= length <= 255 * 32 ->
  let PRK := RFC5869.extract (TextEncoder_encode salt) ikm in
  let infoBytes := TextEncoder_encode info in
  let OKM := firstn (Z.to_nat length)
               (RFC5869.T_upto PRK infoBytes
                  (Z.to_nat (Hkdf.Math_ceil_div length 32))) in
  Hkdf.hkdf ikm salt info length w = (Ok OKM, w)
  /\ RFC5869.expand PRK infoBytes length = Ok OKM
  /\ List.length OKM = Z.to_nat length.
Proof.
  intros Hl PRK infoBytes OKM.
  assert (HE : RFC5869.expand PRK infoBytes length = Ok OKM).
  { unfold RFC5869.expand, RFC5869.HashLen.
    replace (255 * 32 <? length) with false
      by (symmetry; apply Z.ltb_ge; lia).
    reflexivity. }
  assert (HO : OKM = Pure.expand_of PRK infoBytes length).
  { rewrite expand_of_RFC in HE by lia. now injection HE. }
  split; [|split].
  - rewrite hkdf_run, extract_key_RFC. fold PRK infoBytes. now rewrite <- HO.
  - exact HE.
  - rewrite HO. apply expand_of_length. lia.
Qed.

Lemma hkdf_expand_is_RFC5869_witness :
  1 <= 32 <= 255 * 32
  /\ Hkdf.hkdf (repeat x0b 22) "" "HS256 signature key" 32 (fun _ => x00)
     = (RFC5869.expand (RFC5869.extract [] (repeat x0b 22))
          (TextEncoder_encode "HS256 signature key") 32, fun _ => x00).
Proof.
  split; [lia|].
  destruct (hkdf_expand_is_RFC5869 (repeat x0b 22) "" "HS256 signature key"
              32 (fun _ => x00) ltac:(lia)) as (H1 & H2 & _).
  cbv zeta in H1, H2. change (TextEncoder_encode "") with (@nil byte) in *.
  rewrite H1, H2. reflexivity.
Defined.

(** ** C9: the two implementations agree *)

(** C9. For every [ikm], [salt], [info] and [length], [hkdfWithSteps]
    and [hkdf] both resolve, and the [okm] field of the first is the buffer
    the second returns. *)
Theorem hkdfWithSteps_okm_is_hkdf (ikm : list byte) (salt info : string)
    (length : Z) (w : World) :
  exists r,
    Hkdf.hkdfWithSteps ikm salt info length w = (Ok r, w)
    /\ Hkdf.hkdf ikm salt info length w = (Ok (Hkdf.okm r), w).
Proof.
  eexists. split; [apply hkdfWithSteps_run | apply hkdf_run].
Qed.

(** ** C8: determinism *)

(** C8. [hkdf] and [hkdfWithSteps] are functions of their four
    arguments: whatever the state of the random source, they return the
    same outcome (the same PRK and the same OKM), and they leave the random
    source as they found it. *)
Theorem hkdf_deterministic (ikm : list byte) (salt info : string)
    (length : Z) (w1 w2 : World) :
  fst (Hkdf.hkdf ikm salt info length w1)
  = fst (Hkdf.hkdf ikm salt info length w2)
  /\ snd (Hkdf.hkdf ikm salt info length w1) = w1
  /\ fst (Hkdf.hkdfWithSteps ikm salt info length w1)
     = fst (Hkdf.hkdfWithSteps ikm salt info length w2)
  /\ snd (Hkdf.hkdfWithSteps ikm salt info length w1) = w1.
Proof.
  pose proof (hkdfWithSteps_run ikm salt info length) as HS. cbv zeta in HS.
  rewrite !hkdf_run, !HS. repeat split.
Qed.

(** ** C2: the length bound *)

(** C2, as the code has it.  For a requested length beyond [255 * 32],
    [hkdf] and [hkdfWithSteps] do not fail: they return exactly [length]
    bytes. *)
Theorem hkdf_beyond_bound (ikm : list byte) (salt info : string)
    (length : Z) (w : World) :
  255 * 32 < length ->
  exists okm,
    Hkdf.hkdf ikm salt info length w = (Ok okm, w)
    /\ (exists r, Hkdf.hkdfWithSteps ikm salt info length w = (Ok r, w)
                  /\ Hkdf.okm r = okm)
    /\ List.length okm = Z.to_nat length.
Proof.
  intros Hl. eexists. split; [apply hkdf_run | split].
  - eexists. split; [apply hkdfWithSteps_run | reflexivity].
  - apply expand_of_length. lia.
Qed.

Lemma hkdf_beyond_bound_witness :
  255 * 32 < 8161
  /\ exists okm,
       Hkdf.hkdf [] "" "" 8161 (fun _ => x00) = (Ok okm, fun _ => x00)
       /\ List.length okm = Z.to_nat 8161.
Proof.
  split; [lia|].
  destruct (hkdf_beyond_bound [] "" "" 8161 (fun _ => x00) ltac:(lia))
    as (okm & H & _ & L).
  exists okm. split; [exact H | exact L].
Defined.

(** C2, as stated, fails: asked for [255 * 32 + 1] bytes, [hkdf] and
    [hkdfWithSteps] return them; no [InvalidLength] is raised. *)
Lemma hkdf_8161_bytes_returned :
  255 * 32 < 8161
  /\ (exists okm,
        fst (Hkdf.hkdf [] "" "" 8161 (fun _ => x00)) = Ok okm
        /\ List.length okm = Z.to_nat 8161)
  /\ fst (Hkdf.hkdf [] "" "" 8161 (fun _ => x00)) <> Err InvalidLength
  /\ fst (Hkdf.hkdfWithSteps [] "" "" 8161 (fun _ => x00)) <> Err InvalidLength.
Proof.
  pose proof (hkdfWithSteps_run [] "" "" 8161 (fun _ => x00)) as HS.
  cbv zeta in HS. rewrite hkdf_run, HS. cbn [fst].
  split; [lia|]. split; [|split; discriminate].
  eexists. split; [reflexivity|].
  apply expand_of_length. lia.
Qed.


(** ** C3: generated scalars *)

(** C3, as the code has it.  [generatePrivateKey] draws 32 bytes from the
    secure random source and returns their hexadecimal text; it makes no
    range check and never fails, so the scalar it returns is whatever 256-bit
    value was drawn, zero and values from [n] up included. *)
Theorem generatePrivateKey_draws_32_bytes (w : World) :
  let bytes := Pure.drawn w 32 in
  Crypto.generatePrivateKey w
  = (Ok (Crypto.arrayBufferToHex bytes), Pure.after w 32)
  /\ List.length bytes = 32%nat
  /\ BigInt_0x (String_replace "0x" "" (Crypto.arrayBufferToHex bytes))
     = Ok (SHA256.be_value bytes 0)
  /\ 0 <= SHA256.be_value bytes 0 < 2 ^ 256.
Proof.
  intros bytes. subst bytes.
  split; [apply generatePrivateKey_run|].
  split; [apply drawn_length|].
  split; [apply scalar_of_hex_text; discriminate|].
  pose proof (be_value_bound (Pure.drawn w 32) 0 ltac:(lia)) as H.
  rewrite drawn_length in H.
  change (256 ^ Z.of_nat 32) with (2 ^ 256) in H. lia.
Qed.

(** C3, as stated, fails: when the source delivers 32 zero bytes the
    function returns the text of the scalar zero, and when it delivers 32
    bytes [0xff] it returns a scalar above the group order of P-256; neither
    draw is rejected. *)
Lemma generatePrivateKey_returns_zero :
  (exists s,
     fst (Crypto.generatePrivateKey (fun _ => x00)) = Ok s
     /\ BigInt_0x (String_replace "0x" "" s) = Ok 0)
  /\ (exists s k,
        fst (Crypto.generatePrivateKey (fun _ => xff)) = Ok s
        /\ BigInt_0x (String_replace "0x" "" s) = Ok k
        /\ P256_order <= k)
  /\ fst (Crypto.generatePrivateKey (fun _ => x00)) <> Err InvalidScalar
  /\ fst (Crypto.generatePrivateKey (fun _ => xff)) <> Err InvalidScalar.
Proof.
  repeat split.
  - eexists. split; vm_compute; reflexivity.
  - do 2 eexists. split; [vm_compute; reflexivity|].
    split; [vm_compute; reflexivity | vm_compute; discriminate].
  - discriminate.
  - discriminate.
Qed.

(** ** C7: the zero scalar *)

(** C7. On every text that reads as the scalar zero,
    [privateKeyToPublicKey] fails with the curve library's out-of-range
    error ([InvalidScalar]) and returns no point. *)
Theorem privateKeyToPublicKey_zero (C : Curve) (privateKeyHex : string) :
  BigInt_0x (String_replace "0x" "" privateKeyHex) = Ok 0 ->
  Crypto.privateKeyToPublicKey C privateKeyHex = Err InvalidScalar.
Proof.
  intros H. unfold Crypto.privateKeyToPublicKey. rewrite H. reflexivity.
Qed.

Lemma privateKeyToPublicKey_zero_witness :
  BigInt_0x (String_replace "0x" ""
    "0x0000000000000000000000000000000000000000000000000000000000000000")
  = Ok 0
  /\ Crypto.privateKeyToPublicKey Z7.curve
       "0x0000000000000000000000000000000000000000000000000000000000000000"
     = Err InvalidScalar.
Proof.
  split; [reflexivity|].
  apply (privateKeyToPublicKey_zero Z7.curve). reflexivity.
Defined.

(** ** C10: the key made from hexadecimal text *)

(** C10. [createPrivateKeyFromHex] does not use its argument: for every
    two arguments and every state of the random source it returns the same
    outcome, the private key of the pair the platform generates from that
    state. *)
Theorem createPrivateKeyFromHex_ignores_argument (ECCryptoKey : Type)
    (generateKey : bool -> list WebCrypto.KeyUsage
                   -> M (WebCrypto.CryptoKeyPair ECCryptoKey))
    (a b : string) (w : World) :
  Crypto.createPrivateKeyFromHex ECCryptoKey generateKey a w
  = Crypto.createPrivateKeyFromHex ECCryptoKey generateKey b w
  /\ Crypto.createPrivateKeyFromHex ECCryptoKey generateKey a w
     = match generateKey true [WebCrypto.deriveKey; WebCrypto.deriveBits] w with
       | (Ok keyPair, w') => (Ok (WebCrypto.privateKey keyPair), w')
       | (Err e, w') => (Err e, w')
       end.
Proof. split; reflexivity. Qed.

(** ** C1: both sides reach the same secret *)

(** C1. Let the texts [dh], [bh], [vh] read as scalars [d], [b], [v]
    in [1, n-1], on a backend that is a group of prime order [n].  Then the
    producer's [performECDH(d, scalarMultiplication(b,
    privateKeyToPublicKey(v)))] and the validator's
    [performECDH(v, calculateDbG(d, b))] are both computed and are the same
    point [S]; and with the same salt and info, the key [deriveHMACKey]
    derives from [S.x] on the producer side and the key
    [performValidatorECDH] derives on the validator side are the same 32
    bytes. *)
Theorem shared_secret_agrees (C : Curve) (dh bh vh : string) (d b v : Z) :
  CurveLaws C ->
  BigInt_0x (String_replace "0x" "" dh) = Ok d -> 1 <= d < order C ->
  BigInt_0x (String_replace "0x" "" bh) = Ok b -> 1 <= b < order C ->
  BigInt_0x (String_replace "0x" "" vh) = Ok v -> 1 <= v < order C ->
  exists S D : Crypto.ECPoint,
    bindR (Crypto.privateKeyToPublicKey C vh)
      (fun V => bindR (Crypto.scalarMultiplication C bh V)
                  (fun B => Crypto.performECDH C dh B)) = Ok S
    /\ Crypto.calculateDbG C dh bh = Ok D
    /\ Crypto.performECDH C vh D = Ok S
    /\ forall (salt info : string) (w : World),
         exists (prkHex : string) (key : list byte),
           List.length key = 32%nat
           /\ Demo.deriveHMACKey (Crypto.x S) salt info w
              = (Ok (Some (prkHex, Hkdf.arrayBufferToHex key)), w)
           /\ Demo.performValidatorECDH C vh D salt info w
              = (Ok (Some (S, Hkdf.arrayBufferToHex key)), w).
Proof.
  intros laws Hd Rd Hb Rb Hv Rv.
  pose proof (BASE_nonzero C laws) as G0.
  pose proof (mul_nonzero C laws v _ Rv G0) as V0.
  pose proof (mul_nonzero C laws b _ Rb G0) as B0.
  pose proof (mul_nonzero C laws b _ Rb V0) as BV0.
  pose proof (mul_nonzero C laws d _ Rd B0) as DB0.
  exists (Pure.ECPoint_of_bytes (toBytes C (mul C d (mul C b (mul C v (BASE C)))))).
  exists (Pure.ECPoint_of_bytes (toBytes C (mul C d (mul C b (BASE C))))).
  assert (HD : Crypto.calculateDbG C dh bh
               = Ok (Pure.ECPoint_of_bytes
                       (toBytes C (mul C d (mul C b (BASE C)))))).
  { unfold Crypto.calculateDbG.
    rewrite (privateKeyToPublicKey_on C laws bh b Hb Rb). cbn [bindR].
    apply (performECDH_on_point C laws dh d _ Hd Rd B0). }
  assert (HS : Crypto.performECDH C vh
                 (Pure.ECPoint_of_bytes (toBytes C (mul C d (mul C b (BASE C)))))
               = Ok (Pure.ECPoint_of_bytes
                       (toBytes C (mul C d (mul C b (mul C v (BASE C))))))).
  { rewrite (performECDH_on_point C laws vh v _ Hv Rv DB0).
    rewrite !(mul_mul C laws).
    replace (v * d * b) with (d * b * v) by ring. reflexivity. }
  split; [|split; [exact HD | split; [exact HS|]]].
  - rewrite (privateKeyToPublicKey_on C laws vh v Hv Rv). cbn [bindR].
    unfold Crypto.scalarMultiplication.
    rewrite (performECDH_on_point C laws bh b _ Hb Rb V0). cbn [bindR].
    apply (performECDH_on_point C laws dh d _ Hd Rd BV0).
  - intros salt info w.
    pose proof (hkdfWithSteps_run
                  (Hkdf.hexToArrayBuffer
                     (Crypto.x (Pure.ECPoint_of_bytes
                        (toBytes C (mul C d (mul C b (mul C v (BASE C))))))))
                  salt info 32 w) as HW.
    cbv zeta in HW.
    eexists. eexists. split; [|split].
    2:{ unfold Demo.deriveHMACKey. rewrite ECPoint_of_bytes_x.
        cbn [Demo.falsy]. unfold try_catch, bindM.
        rewrite <- ECPoint_of_bytes_x, HW. cbn [Hkdf.prkHex Hkdf.okmHex ret].
        reflexivity. }
    + apply expand_of_length. lia.
    + unfold Demo.performValidatorECDH.
      rewrite (scalar_text_nonempty vh v Hv), ECPoint_of_bytes_x.
      cbn [Demo.falsy orb]. unfold try_catch, bindM, lift.
      rewrite HS, hkdf_run. reflexivity.
Qed.

Lemma shared_secret_agrees_witness :
  (1 <= 1 < order Z7.curve /\ 1 <= 3 < order Z7.curve
   /\ 1 <= 2 < order Z7.curve)
  /\ exists S D : Crypto.ECPoint,
       bindR (Crypto.privateKeyToPublicKey Z7.curve "0x02")
         (fun V => bindR (Crypto.scalarMultiplication Z7.curve "0x03" V)
                     (fun B => Crypto.performECDH Z7.curve "0x01" B)) = Ok S
       /\ Crypto.calculateDbG Z7.curve "0x01" "0x03" = Ok D
       /\ Crypto.performECDH Z7.curve "0x02" D = Ok S.
Proof.
  assert (R : forall k, 1 <= k < 7 -> 1 <= k < order Z7.curve)
    by (intros k H; exact H).
  split; [repeat split; cbn [order Z7.curve]; lia|].
  destruct (shared_secret_agrees Z7.curve "0x01" "0x03" "0x02" 1 3 2
              Z7_laws eq_refl (R 1 ltac:(lia)) eq_refl (R 3 ltac:(lia))
              eq_refl (R 2 ltac:(lia)))
    as (S & D & H1 & H2 & H3 & _).
  exists S, D. repeat split; assumption.
Defined.

End Claims.


(** * The code, run *)

Section Examples.
Import JS.

(** SHA-256 of ["abc"] (FIPS 180-4, B.1). *)
Example sha256_abc :
  Hkdf.arrayBufferToHex (SHA256.sha256 (TextEncoder_encode "abc"))
  = "0xba7816bf8f01cfea414140de5dae2223b00361a396177a9cb410ff61f20015ad".
Proof. vm_compute. reflexivity. Qed.

(** HMAC-SHA-256, test case 1 of RFC 4231. *)
Example hmac_rfc4231_case1 :
  Hkdf.arrayBufferToHex
    (SHA256.hmac (repeat x0b 20) (TextEncoder_encode "Hi There"))
  = "0xb0344c61d8db38535ca8afceaf0bf12b881dc200c9833da726e9376c2e32cff7".
Proof. vm_compute. reflexivity. Qed.

(** [hkdfWithSteps] and [hkdf] on test case 3 of RFC 5869 (empty salt and
    info, 42 bytes). *)
Example hkdf_rfc5869_case3 :
  let w := fun _ : nat => x00 in
  (match fst (Hkdf.hkdfWithSteps (repeat x0b 22) "" "" 42 w) with
   | Ok r => (Hkdf.prkHex r, Hkdf.okmHex r)
   | Err _ => ("", "")
   end)
  = ("0x19ef24a32c717b167f33a91d6f648bdf96596776afdb6377ac434c1c293ccb04",
     "0x8da4e775a563c18f715f802a063c5a31b8a11f5c5ee1879ec3454e5f3c738d2d"
     ++ "9d201395faa4b61a96c8")
  /\ fst (Hkdf.hkdf (repeat x0b 22) "" "" 42 w)
     = Ok (Hkdf.hexToArrayBuffer
             ("0x8da4e775a563c18f715f802a063c5a31b8a11f5c5ee1879ec3454e5f3c738d2d"
              ++ "9d201395faa4b61a96c8")).
Proof. split; vm_compute; reflexivity. Qed.

(** Past round 255 the counter byte of the expand loop starts again: a
    typed-array store keeps the number modulo 256. *)
Example counter_byte_wraps :
  ToUint8 255 = xff /\ ToUint8 256 = x00 /\ ToUint8 257 = x01.
Proof. repeat split. Qed.

(** A length of zero or below gives an empty buffer. *)
Example hkdf_no_bytes :
  fst (Hkdf.hkdf [x01] "salt" "info" 0 (fun _ => x00)) = Ok []
  /\ fst (Hkdf.hkdf [x01] "salt" "info" (-5) (fun _ => x00)) = Ok [].
Proof. split; vm_compute; reflexivity. Qed.

(** [hexToArrayBuffer] on text that is no even run of digits: a missing
    digit is dropped, a pair that is no number reads as 0, a sign is
    honoured. *)
Example hexToArrayBuffer_odd_text :
  Crypto.hexToArrayBuffer "0x0aff1" = [x0a; xff]
  /\ Crypto.hexToArrayBuffer "zz-1" = [x00; xff].
Proof. split; vm_compute; reflexivity. Qed.

(** On P-256 the public key of the scalar 2 is the point [2G]. *)
Example P256_public_key_of_2 :
  Crypto.privateKeyToPublicKey P256.curve "0x02"
  = Ok {| Crypto.x :=
            "0x7cf27b188d034f7e8a52380304b51ac3c08969e277f21b35a60b48fc47669978";
          Crypto.y :=
            "0x07775510db8ed040293d9ac69f7430dbba7dade63ce982299e04b79d227873d1" |}.
Proof. vm_compute. reflexivity. Qed.

(** The scenario [d = 0x01], [v = 0x02], [b = 0x03] on P-256: both sides
    reach [6G], and derive the same key from it. *)
Example P256_scenario :
  let S := {| Crypto.x :=
                "0xb01a172a76a4602c92d3242cb897dde3024c740debb215b4c6b0aae93c2291a9";
              Crypto.y :=
                "0xe85c10743237dad56fec0e2dfba703791c00f7701c7e16bdfd7c48538fc77fe2" |} in
  let K := "0x634548901a50d4cbbf2dfbd81625c4ecb2e9ea41d469ed2aa7c74c0fa43f14ac" in
  let w := fun _ : nat => x00 in
  bindR (Crypto.privateKeyToPublicKey P256.curve "0x02")
    (fun V => bindR (Crypto.scalarMultiplication P256.curve "0x03" V)
                (fun B => Crypto.performECDH P256.curve "0x01" B)) = Ok S
  /\ bindR (Crypto.calculateDbG P256.curve "0x01" "0x03")
       (fun D =>
          match fst (Demo.performValidatorECDH P256.curve "0x02" D ""
                       "test-info" w) with
          | Ok (Some (S', K')) => Ok (S', K')
          | _ => Err InvalidPoint
          end) = Ok (S, K)
  /\ option_map snd
       (match fst (Demo.deriveHMACKey (Crypto.x S) "" "test-info" w) with
        | Ok o => o
        | Err _ => None
        end) = Some K.
Proof. split; [|split]; vm_compute; reflexivity. Qed.

(** Out-of-range scalars meet the curve library's check only when they are
    used: the group order itself is refused, and so is a key pair whose
    draw is zero. *)
Example P256_scalar_out_of_range :
  Crypto.privateKeyToPublicKey P256.curve
    "0xffffffff00000000ffffffffffffffffbce6faada7179e84f3b9cac2fc632551"
  = Err InvalidScalar
  /\ fst (Crypto.generateECKeyPair P256.curve (fun _ => x00))
     = Err InvalidScalar.
Proof. split; vm_compute; reflexivity. Qed.

(** A text without digits is no scalar at all: [BigInt] throws before the
    curve library is reached. *)
Example privateKeyToPublicKey_no_digits :
  Crypto.privateKeyToPublicKey P256.curve "0x" = Err SyntaxError
  /\ Crypto.privateKeyToPublicKey P256.curve "" = Err SyntaxError.
Proof. split; vm_compute; reflexivity. Qed.

(** Coordinates that are no point of the curve are refused. *)
Example P256_off_curve :
  Crypto.performECDH P256.curve "0x05" {| Crypto.x := "0x01"; Crypto.y := "0x02" |}
  = Err InvalidPoint.
Proof. vm_compute. reflexivity. Qed.

End Examples.


(** * Further properties of the code *)

(** ** Hexadecimal text *)

Section HexTextFacts.
Import JS.

Lemma u8_store_length (arr : list byte) :
forall i v, List.length (u8_store arr i v) = List.length arr.
Proof.
induction arr as [|a arr IH]; intros [|i] v; cbn [u8_store List.length];
  auto.
Qed.

Lemma hexToArrayBuffer_loop_length (fuel : nat) :
forall i s bytes,
  List.length (Crypto.hexToArrayBuffer_loop fuel i s bytes)
  = List.length bytes.
Proof.
induction fuel as [|fuel IH]; intros i s bytes;
  cbn [Crypto.hexToArrayBuffer_loop]; [reflexivity|].
destruct (i <? String.length s)%nat; [|reflexivity].
now rewrite IH, u8_store_length.
Qed.

Lemma hex2_lower (b : byte) :
exists h l,
  hex2 b = String h (String l EmptyString)
  /\ Text.lowerHex h = true /\ Text.lowerHex l = true.
Proof.
destruct b; do 2 eexists; (split; [vm_compute; reflexivity|]);
  split; vm_compute; reflexivity.
Qed.

Lemma hexOfBytes_lower (bs : list byte) :
Text.allLowerHex (Crypto.hexOfBytes bs) = true.
Proof.
induction bs as [|b bs IH]; [reflexivity|].
rewrite hexOfBytes_cons.
destruct (hex2_lower b) as (h & l & E & Hh & Hl). rewrite E.
cbn [append Text.allLowerHex]. now rewrite Hh, Hl, IH.
Qed.

(** A text of digits has no [0x] in it for [replace] to take out. *)
Lemma replace_0x_digits (t : string) :
Text.allLowerHex t = true -> String_replace "0x" "" t = t.
Proof.
induction t as [|c t IH]; intros H; [reflexivity|].
cbn [Text.allLowerHex] in H. apply andb_true_iff in H as [Hc Ht].
cbn [String_replace].
destruct (String.prefix "0x" (String c t)) eqn:P.
- exfalso. cbn [String.prefix] in P.
  destruct (ascii_dec "0" c); [|discriminate].
  destruct t as [|c' t']; cbn [String.prefix] in P; [discriminate|].
  destruct (ascii_dec "x" c') as [<-|]; [|discriminate].
  cbn [Text.allLowerHex] in Ht. apply andb_true_iff in Ht as [Hx _].
  vm_compute in Hx. discriminate.
- now rewrite IH.
Qed.

Lemma lowerHex_In (c : ascii) : Text.lowerHex c = true -> In c Text.lowerDigits.
Proof.
destruct c as [[] [] [] [] [] [] [] []]; intros H;
  try (vm_compute in H; discriminate H);
  unfold Text.lowerDigits; cbn [In]; clear H;
  repeat (first [left; reflexivity | right]).
Qed.

(** Two lower-case digits are the text of the byte they read as. *)
Lemma lower_pair_hex2 (h l : ascii) :
Text.lowerHex h = true -> Text.lowerHex l = true ->
hex2 (store_number (parseInt16 (String h (String l EmptyString))))
= String h (String l EmptyString).
Proof.
intros Hh Hl. apply lowerHex_In in Hh, Hl.
unfold Text.lowerDigits in Hh, Hl. cbn [In] in Hh, Hl.
repeat (destruct Hh as [<-|Hh]); try contradiction;
  repeat (destruct Hl as [<-|Hl]); try contradiction;
  vm_compute; reflexivity.
Qed.

Lemma lower_text_is_hexOfBytes :
forall n t,
  String.length t = (2 * n)%nat -> Text.allLowerHex t = true ->
  exists bs, Crypto.hexOfBytes bs = t /\ List.length bs = n.
Proof.
induction n as [|n IH]; intros t Hlen Hlow.
- destruct t; [|discriminate]. exists []. split; reflexivity.
- destruct t as [|h t]; [cbn [String.length] in Hlen; lia|].
  destruct t as [|l t]; [cbn [String.length] in Hlen; lia|].
  cbn [Text.allLowerHex] in Hlow.
  apply andb_true_iff in Hlow as [Hh Hlow].
  apply andb_true_iff in Hlow as [Hl Hlow].
  destruct (IH t) as (bs & E & L);
    [cbn [String.length] in Hlen; lia | exact Hlow|].
  exists (store_number (parseInt16 (String h (String l EmptyString))) :: bs).
  split; [|cbn [List.length]; now rewrite L].
  rewrite hexOfBytes_cons, (lower_pair_hex2 h l Hh Hl), E. reflexivity.
Qed.

Lemma even_half (k : nat) : Nat.even k = true -> k = (2 * (k / 2))%nat.
Proof.
intros H. apply Nat.even_spec in H as [m ->].
now rewrite Nat.mul_comm, Nat.div_mul, Nat.mul_comm by lia.
Qed.

End HexTextFacts.

Section HexTextProperties.
Import JS.

(** X1. [hexToArrayBuffer] gives one byte for every two characters left
    after the first [0x] is taken out, whatever the characters are; a last
    odd character is dropped. *)
Theorem hexToArrayBuffer_length (hex : string) :
  List.length (Crypto.hexToArrayBuffer hex)
  = (String.length (String_replace "0x" "" hex) / 2)%nat
  /\ List.length (Hkdf.hexToArrayBuffer hex)
     = (String.length (String_replace "0x" "" hex) / 2)%nat.
Proof.
  assert (H : List.length (Crypto.hexToArrayBuffer hex)
              = (String.length (String_replace "0x" "" hex) / 2)%nat).
  { unfold Crypto.hexToArrayBuffer.
    rewrite hexToArrayBuffer_loop_length.
    unfold new_Uint8Array. now rewrite repeat_length. }
  split; [exact H|].
  pose proof (Hkdf_hexToArrayBuffer_same hex) as E. now rewrite E.
Qed.

(** X2. The text [arrayBufferToHex] writes is [0x] followed by two
    lower-case hexadecimal digits for each byte, and nothing else. *)
Theorem arrayBufferToHex_canonical (buffer : list byte) :
  Text.canonical (Crypto.arrayBufferToHex buffer) = true
  /\ String.length (Crypto.arrayBufferToHex buffer)
     = (2 + 2 * List.length buffer)%nat.
Proof.
  unfold Crypto.arrayBufferToHex.
  change (String.concat "" (map hex2 buffer)) with (Crypto.hexOfBytes buffer).
  change ("0x" ++ Crypto.hexOfBytes buffer)
    with (String "0" (String "x" (Crypto.hexOfBytes buffer))).
  cbn [Text.canonical String.length].
  rewrite hexOfBytes_lower, hexOfBytes_length. split; [|lia].
  replace (2 * List.length buffer)%nat with (0 + 2 * List.length buffer)%nat
    by lia.
  now rewrite Nat.even_add_mul_2.
Qed.

(** X3. The [0x] prefix is optional: a text of lower-case digits is
    decoded to the same bytes with and without it. *)
Theorem hexToArrayBuffer_prefix_optional (digits : string) :
  Text.allLowerHex digits = true ->
  Crypto.hexToArrayBuffer digits = Crypto.hexToArrayBuffer ("0x" ++ digits).
Proof.
  intros H. unfold Crypto.hexToArrayBuffer.
  change ("0x" ++ digits) with (String "0" (String "x" digits)).
  now rewrite replace_0x_prefix, (replace_0x_digits digits H).
Qed.

Lemma hexToArrayBuffer_prefix_optional_witness :
  Text.allLowerHex "00ff10" = true
  /\ Crypto.hexToArrayBuffer "00ff10" = Crypto.hexToArrayBuffer "0x00ff10".
Proof.
  split; [reflexivity|].
  apply (hexToArrayBuffer_prefix_optional "00ff10"). reflexivity.
Defined.

(** X4. On the texts that [arrayBufferToHex] writes ([0x] and an even
    number of lower-case digits) encoding undoes decoding:
    [arrayBufferToHex(hexToArrayBuffer(s)) = s]. *)
Theorem arrayBufferToHex_hexToArrayBuffer (s : string) :
  Text.canonical s = true ->
  Crypto.arrayBufferToHex (Crypto.hexToArrayBuffer s) = s.
Proof.
  intros H.
  destruct s as [|c0 s]; [discriminate|].
  destruct s as [|c1 t]; [destruct c0 as [[] [] [] [] [] [] [] []]; discriminate|].
  assert (E0 : c0 = "0"%char /\ c1 = "x"%char /\
               Text.allLowerHex t && Nat.even (String.length t) = true).
  { revert H. unfold Text.canonical.
    destruct c0 as [[] [] [] [] [] [] [] []]; try discriminate;
      destruct c1 as [[] [] [] [] [] [] [] []]; try discriminate.
    intros H. repeat split. exact H. }
  destruct E0 as (-> & -> & Ht).
  apply andb_true_iff in Ht as [Hlow Hev].
  destruct (lower_text_is_hexOfBytes _ t (even_half _ Hev) Hlow)
    as (bs & <- & _).
  change (String "0" (String "x" (Crypto.hexOfBytes bs)))
    with (Crypto.arrayBufferToHex bs).
  now rewrite Crypto_hex_roundtrip.
Qed.

Lemma arrayBufferToHex_hexToArrayBuffer_witness :
  Text.canonical "0x00ff10" = true
  /\ Crypto.arrayBufferToHex (Crypto.hexToArrayBuffer "0x00ff10") = "0x00ff10".
Proof.
  split; [reflexivity|].
  apply (arrayBufferToHex_hexToArrayBuffer "0x00ff10"). reflexivity.
Defined.

End HexTextProperties.

(** ** More on the HKDF code *)

Section HkdfMoreFacts.
Import JS.
Local Open Scope list_scope.

Lemma Math_ceil_div_32_mono (a b : Z) :
  a <= b -> Hkdf.Math_ceil_div a 32 <= Hkdf.Math_ceil_div b 32.
Proof.
  intros H. pose proof (Math_ceil_div_32 a) as Ha.
  pose proof (Math_ceil_div_32 b) as Hb. cbv zeta in Ha, Hb. lia.
Qed.

(** Step 2 returns nothing for a length of zero or below. *)
Lemma expand_of_nonpositive (prk info : list byte) (length : Z) :
  length <= 0 -> Pure.expand_of prk info length = [].
Proof.
  intros H. unfold Pure.expand_of.
  pose proof (Math_ceil_div_32 length) as Hc. cbv zeta in Hc.
  replace (Z.to_nat (Hkdf.Math_ceil_div length 32)) with 0%nat by lia.
  cbn [Pure.expand_iter]. unfold u8_slice. cbn [skipn List.length].
  now rewrite skipn_nil, firstn_nil.
Qed.

Lemma expand_of_length_any (prk info : list byte) (length : Z) :
  List.length (Pure.expand_of prk info length) = Z.to_nat length.
Proof.
  destruct (Z.le_gt_cases length 0) as [H|H].
  - rewrite expand_of_nonpositive by assumption. cbn [List.length]. lia.
  - apply expand_of_length. lia.
Qed.

(** The loop only ever appends to [okm]. *)
Lemma expand_iter_extends (prk info : list byte) :
  forall count i t okm,
    exists rest, Pure.expand_iter prk info count i t okm = okm ++ rest.
Proof.
  induction count as [|c IH]; intros i t okm; cbn [Pure.expand_iter].
  - exists []. now rewrite app_nil_r.
  - destruct (IH (i + 1)
                (SHA256.hmac prk (t ++ info ++ [ToUint8 i]))
                (okm ++ SHA256.hmac prk (t ++ info ++ [ToUint8 i])))
      as (rest & ->).
    eexists. now rewrite <- app_assoc.
Qed.

(** More rounds extend the output of fewer rounds. *)
Lemma expand_iter_more (prk info : list byte) :
  forall c1 c2 i t okm,
    exists rest,
      Pure.expand_iter prk info (c1 + c2) i t okm
      = Pure.expand_iter prk info c1 i t okm ++ rest.
Proof.
  induction c1 as [|c1 IH]; intros c2 i t okm.
  - cbn [Nat.add Pure.expand_iter]. apply expand_iter_extends.
  - cbn [Nat.add Pure.expand_iter]. apply IH.
Qed.

Lemma expand_of_prefix_of_longer (prk info : list byte) (l1 l2 : Z) :
  0 <= l1 <= l2 ->
  Pure.expand_of prk info l1
  = firstn (Z.to_nat l1) (Pure.expand_of prk info l2).
Proof.
  intros H.
  rewrite (expand_of_prefix prk info l1), (expand_of_prefix prk info l2) by lia.
  rewrite firstn_firstn, Nat.min_l by lia.
  pose proof (Math_ceil_div_32_mono l1 l2 ltac:(lia)) as Hm.
  pose proof (Math_ceil_div_32 l1) as H1. cbv zeta in H1.
  set (n1 := Hkdf.Math_ceil_div l1 32) in *.
  set (n2 := Hkdf.Math_ceil_div l2 32) in *.
  replace (Z.to_nat n2) with (Z.to_nat n1 + (Z.to_nat n2 - Z.to_nat n1))%nat
    by lia.
  destruct (expand_iter_more prk info (Z.to_nat n1)
              (Z.to_nat n2 - Z.to_nat n1) 1 [] []) as (rest & ->).
  rewrite firstn_app.
  replace (Z.to_nat l1 - List.length
             (Pure.expand_iter prk info (Z.to_nat n1) 1 [] []))%nat
    with 0%nat
    by (rewrite expand_iter_length; cbn [List.length]; lia).
  cbn [firstn]. now rewrite app_nil_r.
Qed.

Lemma encode_NULs (k : nat) :
  TextEncoder_encode (Text.NULs k) = repeat x00 k.
Proof.
  unfold Text.NULs.
  induction k as [|k IH]; [reflexivity|].
  cbn [repeat string_of_list_ascii TextEncoder_encode].
  change (utf8_unit Ascii.zero) with [x00]. cbn [List.app]. f_equal. exact IH.
Qed.

(** HMAC pads a short key with zero bytes: zero keys of up to 64 bytes are
    one key. *)
Lemma hmac_zero_key (k : nat) (data : list byte) :
  (k <= 64)%nat ->
  SHA256.hmac (repeat x00 k) data = SHA256.hmac (repeat x00 64) data.
Proof.
  intros H.
  assert (E1 : (repeat x00 k ++ repeat x00 (64 - k) = repeat x00 64)%list).
  { rewrite <- repeat_app. f_equal. lia. }
  assert (E2 : (repeat x00 64 ++ repeat x00 (64 - 64) = repeat x00 64)%list).
  { rewrite Nat.sub_diag. apply app_nil_r. }
  unfold SHA256.hmac. rewrite !repeat_length.
  replace (64 <? k)%nat with false by (symmetry; apply Nat.ltb_ge; lia).
  rewrite Nat.ltb_irrefl.
  rewrite !repeat_length, E1, E2. reflexivity.
Qed.

Lemma extract_NULs (k : nat) (ikm : list byte) :
  (k <= 64)%nat ->
  SHA256.hmac (Pure.extract_key (Text.NULs k)) ikm
  = SHA256.hmac (Pure.extract_key "") ikm.
Proof.
  intros H.
  assert (E : Pure.extract_key (Text.NULs k)
              = repeat x00 (if (k =? 0)%nat then 32%nat else k)).
  { destruct k as [|k]; [reflexivity|].
    unfold Pure.extract_key.
    change (Text.NULs (S k)) with (String Ascii.zero (Text.NULs k)).
    change (String Ascii.zero (Text.NULs k)) with (Text.NULs (S k)).
    rewrite encode_NULs. reflexivity. }
  rewrite E. change (Pure.extract_key "") with (repeat x00 32).
  transitivity (SHA256.hmac (repeat x00 64) ikm).
  - apply hmac_zero_key. destruct k; cbn [Nat.eqb]; lia.
  - symmetry. apply hmac_zero_key. lia.
Qed.

End HkdfMoreFacts.

Section HkdfProperties.
Import JS.

(** X5. Whatever the requested length, [hkdf] resolves with exactly that
    many bytes, and with none when the length is zero or negative. *)
Theorem hkdf_length (ikm : list byte) (salt info : string) (length : Z)
    (w : World) :
  exists okm,
    Hkdf.hkdf ikm salt info length w = (Ok okm, w)
    /\ List.length okm = Z.to_nat length.
Proof.
  eexists. split; [apply hkdf_run | apply expand_of_length_any].
Qed.

(** X6. A shorter output is the beginning of a longer one: for
    [0 <= l1 <= l2] and the same [ikm], [salt] and [info], the bytes [hkdf]
    returns for [l1] are the first [l1] bytes of those it returns for
    [l2]. *)
Theorem hkdf_shorter_is_prefix (ikm : list byte) (salt info : string)
    (l1 l2 : Z) (w : World) :
  0 <= l1 <= l2 ->
  exists okm1 okm2,
    Hkdf.hkdf ikm salt info l1 w = (Ok okm1, w)
    /\ Hkdf.hkdf ikm salt info l2 w = (Ok okm2, w)
    /\ okm1 = firstn (Z.to_nat l1) okm2.
Proof.
  intros H. do 2 eexists.
  split; [apply hkdf_run|]. split; [apply hkdf_run|].
  now apply expand_of_prefix_of_longer.
Qed.

Lemma hkdf_shorter_is_prefix_witness :
  0 <= 16 <= 40
  /\ exists okm1 okm2,
       Hkdf.hkdf [x01] "s" "i" 16 (fun _ => x00) = (Ok okm1, fun _ => x00)
       /\ Hkdf.hkdf [x01] "s" "i" 40 (fun _ => x00) = (Ok okm2, fun _ => x00)
       /\ okm1 = firstn (Z.to_nat 16) okm2.
Proof.
  split; [lia|].
  apply (hkdf_shorter_is_prefix [x01] "s" "i" 16 40 (fun _ => x00)). lia.
Defined.

(** X7. A salt made of up to 64 characters U+0000 derives the same PRK
    and the same OKM as the empty salt, in [hkdf] and in [hkdfWithSteps]. *)
Theorem hkdf_zero_salts_coincide (k : nat) (ikm : list byte) (info : string)
    (length : Z) (w : World) :
  (k <= 64)%nat ->
  Hkdf.hkdf ikm (Text.NULs k) info length w = Hkdf.hkdf ikm "" info length w
  /\ Hkdf.hkdfWithSteps ikm (Text.NULs k) info length w
     = Hkdf.hkdfWithSteps ikm "" info length w.
Proof.
  intros H.
  pose proof (hkdfWithSteps_run ikm (Text.NULs k) info length w) as H1.
  pose proof (hkdfWithSteps_run ikm "" info length w) as H2.
  cbv zeta in H1, H2.
  rewrite !hkdf_run, H1, H2, (extract_NULs k ikm H). split; reflexivity.
Qed.

Lemma hkdf_zero_salts_coincide_witness :
  (40 <= 64)%nat
  /\ Hkdf.hkdf [x01] (Text.NULs 40) "i" 32 (fun _ => x00)
     = Hkdf.hkdf [x01] "" "i" 32 (fun _ => x00).
Proof.
  split; [lia|].
  apply (hkdf_zero_salts_coincide 40 [x01] "i" 32 (fun _ => x00)). lia.
Defined.

(** X8. The texts in the result of [hkdfWithSteps] decode back to its
    buffers: [hexToArrayBuffer(prkHex) = prk] and
    [hexToArrayBuffer(okmHex) = okm]; the PRK has 32 bytes and [okm] has
    [length] bytes. *)
Theorem hkdfWithSteps_texts_decode (ikm : list byte) (salt info : string)
    (length : Z) (w : World) :
  exists r,
    Hkdf.hkdfWithSteps ikm salt info length w = (Ok r, w)
    /\ Hkdf.hexToArrayBuffer (Hkdf.prkHex r) = Hkdf.prk r
    /\ Hkdf.hexToArrayBuffer (Hkdf.okmHex r) = Hkdf.okm r
    /\ List.length (Hkdf.prk r) = 32%nat
    /\ List.length (Hkdf.okm r) = Z.to_nat length.
Proof.
  eexists. split; [apply hkdfWithSteps_run|].
  cbn [Hkdf.prkHex Hkdf.okmHex Hkdf.prk Hkdf.okm].
  split; [|split; [|split]].
  - rewrite Hkdf_hexToArrayBuffer_same. apply Crypto_hex_roundtrip.
  - rewrite Hkdf_hexToArrayBuffer_same. apply Crypto_hex_roundtrip.
  - apply hmac_length.
  - apply expand_of_length_any.
Qed.

End HkdfProperties.


(** ** More on the curve code *)

Section CurveMoreFacts.
Import JS.

Lemma badFormat_false (raw : list byte) :
  Crypto.badFormat raw = false ->
  List.length raw = 65%nat /\ hd x00 raw = x04.
Proof.
  unfold Crypto.badFormat. intros H.
  apply orb_false_iff in H as [Ht Hl].
  apply negb_false_iff in Ht, Hl. apply Nat.eqb_eq in Hl.
  split; [exact Hl|].
  destruct raw as [|t rest]; [discriminate|].
  cbn [hd]. now apply Byte.byte_dec_bl.
Qed.

(** The two texts built from 65 tagged bytes. *)
Lemma ECPoint_of_bytes_format (raw : list byte) :
  Crypto.badFormat raw = false ->
  let S := Pure.ECPoint_of_bytes raw in
  Text.canonical (Crypto.x S) = true
  /\ String.length (Crypto.x S) = 66%nat
  /\ Text.canonical (Crypto.y S) = true
  /\ String.length (Crypto.y S) = 66%nat.
Proof.
  intros H. apply badFormat_false in H as [Hl Ht].
  destruct (raw_point_split raw Hl Ht) as (_ & Hx & Hy).
  cbv zeta. rewrite ECPoint_of_bytes_x, ECPoint_of_bytes_y.
  cbn [Text.canonical String.length].
  rewrite !hexOfBytes_lower, !hexOfBytes_length, Hx, Hy.
  repeat split.
Qed.

Lemma performECDH_inv (C : Curve) (kh : string) (Q S : Crypto.ECPoint) :
  Crypto.performECDH C kh Q = Ok S ->
  exists raw, Crypto.badFormat raw = false /\ S = Pure.ECPoint_of_bytes raw.
Proof.
  unfold Crypto.performECDH. intros H.
  destruct (BigInt_0x _) as [k|]; [|discriminate]. cbn [bindR] in H.
  destruct (fold_left _ _ _) as [xb yb].
  destruct (u8_set _ xb 1) as [b1|]; [|discriminate]. cbn [bindR] in H.
  destruct (u8_set b1 yb 33) as [b2|]; [|discriminate]. cbn [bindR] in H.
  destruct (Noble.ProjectivePoint_fromHex C b2) as [P|]; [|discriminate].
  cbn [bindR] in H.
  destruct (Noble.multiply C P k) as [R|]; [|discriminate]. cbn [bindR] in H.
  destruct (Noble.toRawBytes C R) as [raw|]; [|discriminate].
  cbn [bindR] in H.
  destruct (Crypto.badFormat raw) eqn:B; [discriminate|].
  exists raw. split; [exact B|]. injection H as <-. reflexivity.
Qed.

Lemma privateKeyToPublicKey_inv (C : Curve) (kh : string) (S : Crypto.ECPoint) :
  Crypto.privateKeyToPublicKey C kh = Ok S ->
  exists raw, Crypto.badFormat raw = false /\ S = Pure.ECPoint_of_bytes raw.
Proof.
  unfold Crypto.privateKeyToPublicKey. intros H.
  destruct (BigInt_0x _) as [k|]; [|discriminate]. cbn [bindR] in H.
  destruct (Noble.getPublicKey C k) as [raw|]; [|discriminate].
  cbn [bindR] in H.
  destruct (Crypto.badFormat raw) eqn:B; [discriminate|].
  exists raw. split; [exact B|]. injection H as <-. reflexivity.
Qed.

(** A scalar outside [1, n-1] stops [privateKeyToPublicKey] at the curve
    library's range check. *)
Lemma privateKeyToPublicKey_out_of_range (C : Curve) (kh : string) (k : Z) :
  BigInt_0x (String_replace "0x" "" kh) = Ok k ->
  ~ (1 <= k < order C) ->
  Crypto.privateKeyToPublicKey C kh = Err InvalidScalar.
Proof.
  intros Hk Hr. unfold Crypto.privateKeyToPublicKey. rewrite Hk.
  cbn [bindR]. unfold Noble.getPublicKey, Noble.multiply.
  replace ((1 <=? k) && (k <? order C)) with false; [reflexivity|].
  symmetry. apply andb_false_iff.
  destruct (Z.leb_spec 1 k); [|now left].
  right. apply Z.ltb_ge. lia.
Qed.

Lemma generateECKeyPair_run (C : Curve) (w : World) :
  Crypto.generateECKeyPair C w
  = match Crypto.privateKeyToPublicKey C
            (Crypto.arrayBufferToHex (Pure.drawn w 32)) with
    | Ok pub =>
        (Ok {| Crypto.privateKey := Crypto.arrayBufferToHex (Pure.drawn w 32);
               Crypto.publicKey := pub |}, Pure.after w 32)
    | Err e => (Err e, Pure.after w 32)
    end.
Proof.
  unfold Crypto.generateECKeyPair, bindM, lift.
  change (WebCrypto.getRandomValues (new_Uint8Array 32) w)
    with (Ok (Pure.drawn w 32), Pure.after w 32).
  cbv beta iota zeta.
  destruct (Crypto.privateKeyToPublicKey C _); reflexivity.
Qed.

End CurveMoreFacts.

Section CurveProperties.
Import JS.

(** X9. Whatever the backend, a point that [performECDH] or
    [privateKeyToPublicKey] returns has coordinates in the wire format: each
    is [0x] followed by 64 lower-case hexadecimal digits. *)
Theorem returned_point_format (C : Curve) (kh : string)
    (Q S : Crypto.ECPoint) :
  Crypto.performECDH C kh Q = Ok S \/ Crypto.privateKeyToPublicKey C kh = Ok S ->
  Text.canonical (Crypto.x S) = true
  /\ String.length (Crypto.x S) = 66%nat
  /\ Text.canonical (Crypto.y S) = true
  /\ String.length (Crypto.y S) = 66%nat.
Proof.
  intros [H|H].
  - apply performECDH_inv in H as (raw & B & ->).
    now apply ECPoint_of_bytes_format.
  - apply privateKeyToPublicKey_inv in H as (raw & B & ->).
    now apply ECPoint_of_bytes_format.
Qed.

Lemma returned_point_format_witness :
  Crypto.privateKeyToPublicKey Z7.curve "0x03"
  = Ok (Pure.ECPoint_of_bytes (Z7.encode Z7.R3))
  /\ String.length (Crypto.x (Pure.ECPoint_of_bytes (Z7.encode Z7.R3)))
     = 66%nat.
Proof.
  assert (H : Crypto.privateKeyToPublicKey Z7.curve "0x03"
              = Ok (Pure.ECPoint_of_bytes (Z7.encode Z7.R3)))
    by (vm_compute; reflexivity).
  split; [exact H|].
  apply (returned_point_format Z7.curve "0x03"
           (Pure.ECPoint_of_bytes (Z7.encode Z7.R3)) _ (or_intror H)).
Defined.

(** X10. Scalar multiplications commute: on the coordinates of a nonzero
    point and two scalars in [1, n-1], [performECDH] by one scalar and then
    by the other gives the same point in either order (on a backend that is
    a group of prime order). *)
Theorem performECDH_commutes (C : Curve) (ah bh : string) (a b : Z)
    (P : point C) :
  CurveLaws C ->
  BigInt_0x (String_replace "0x" "" ah) = Ok a -> 1 <= a < order C ->
  BigInt_0x (String_replace "0x" "" bh) = Ok b -> 1 <= b < order C ->
  is0 C P = false ->
  let Q := Pure.ECPoint_of_bytes (toBytes C P) in
  exists S,
    bindR (Crypto.performECDH C bh Q) (Crypto.performECDH C ah) = Ok S
    /\ bindR (Crypto.performECDH C ah Q) (Crypto.performECDH C bh) = Ok S.
Proof.
  intros laws Ha Ra Hb Rb HP Q. subst Q.
  pose proof (mul_nonzero C laws a P Ra HP) as A0.
  pose proof (mul_nonzero C laws b P Rb HP) as B0.
  exists (Pure.ECPoint_of_bytes (toBytes C (mul C (a * b) P))).
  split.
  - rewrite (performECDH_on_point C laws bh b P Hb Rb HP). cbn [bindR].
    rewrite (performECDH_on_point C laws ah a _ Ha Ra B0).
    now rewrite (mul_mul C laws).
  - rewrite (performECDH_on_point C laws ah a P Ha Ra HP). cbn [bindR].
    rewrite (performECDH_on_point C laws bh b _ Hb Rb A0).
    rewrite (mul_mul C laws). now replace (b * a) with (a * b) by ring.
Qed.

Lemma performECDH_commutes_witness :
  (1 <= 2 < order Z7.curve /\ 1 <= 5 < order Z7.curve)
  /\ exists S,
       bindR (Crypto.performECDH Z7.curve "0x05"
                (Pure.ECPoint_of_bytes (Z7.encode Z7.R3)))
         (Crypto.performECDH Z7.curve "0x02") = Ok S
       /\ bindR (Crypto.performECDH Z7.curve "0x02"
                   (Pure.ECPoint_of_bytes (Z7.encode Z7.R3)))
            (Crypto.performECDH Z7.curve "0x05") = Ok S.
Proof.
  assert (R : forall k, 1 <= k < 7 -> 1 <= k < order Z7.curve)
    by (intros k H; exact H).
  split; [split; apply R; lia|].
  exact (performECDH_commutes Z7.curve "0x02" "0x05" 2 5 Z7.R3 Z7_laws
           eq_refl (R 2 ltac:(lia)) eq_refl (R 5 ltac:(lia)) eq_refl).
Defined.

(** X11. [calculateDbG] is symmetric in its two scalars: for [d] and [b]
    in [1, n-1], [calculateDbG(d, b)] and [calculateDbG(b, d)] are the same
    point. *)
Theorem calculateDbG_symmetric (C : Curve) (dh bh : string) (d b : Z) :
  CurveLaws C ->
  BigInt_0x (String_replace "0x" "" dh) = Ok d -> 1 <= d < order C ->
  BigInt_0x (String_replace "0x" "" bh) = Ok b -> 1 <= b < order C ->
  exists D,
    Crypto.calculateDbG C dh bh = Ok D /\ Crypto.calculateDbG C bh dh = Ok D.
Proof.
  intros laws Hd Rd Hb Rb.
  pose proof (BASE_nonzero C laws) as G0.
  pose proof (mul_nonzero C laws d _ Rd G0) as D0.
  pose proof (mul_nonzero C laws b _ Rb G0) as B0.
  exists (Pure.ECPoint_of_bytes (toBytes C (mul C (d * b) (BASE C)))).
  unfold Crypto.calculateDbG. split.
  - rewrite (privateKeyToPublicKey_on C laws bh b Hb Rb). cbn [bindR].
    rewrite (performECDH_on_point C laws dh d _ Hd Rd B0).
    now rewrite (mul_mul C laws).
  - rewrite (privateKeyToPublicKey_on C laws dh d Hd Rd). cbn [bindR].
    rewrite (performECDH_on_point C laws bh b _ Hb Rb D0).
    rewrite (mul_mul C laws). now replace (b * d) with (d * b) by ring.
Qed.

Lemma calculateDbG_symmetric_witness :
  (1 <= 2 < order Z7.curve /\ 1 <= 5 < order Z7.curve)
  /\ exists D,
       Crypto.calculateDbG Z7.curve "0x02" "0x05" = Ok D
       /\ Crypto.calculateDbG Z7.curve "0x05" "0x02" = Ok D.
Proof.
  assert (R : forall k, 1 <= k < 7 -> 1 <= k < order Z7.curve)
    by (intros k H; exact H).
  split; [split; apply R; lia|].
  exact (calculateDbG_symmetric Z7.curve "0x02" "0x05" 2 5 Z7_laws
           eq_refl (R 2 ltac:(lia)) eq_refl (R 5 ltac:(lia))).
Defined.

(** X12. [generateECKeyPair] takes 32 bytes from the random source; when
    they read as a scalar in [1, n-1] it returns their hexadecimal text as
    the private key, a text that decodes back to the drawn bytes, with the
    public key [privateKeyToPublicKey] computes for that text. *)
Theorem generateECKeyPair_in_range (C : Curve) (w : World) :
  CurveLaws C ->
  1 <= SHA256.be_value (Pure.drawn w 32) 0 < order C ->
  exists pair,
    Crypto.generateECKeyPair C w = (Ok pair, Pure.after w 32)
    /\ Crypto.privateKey pair = Crypto.arrayBufferToHex (Pure.drawn w 32)
    /\ Crypto.hexToArrayBuffer (Crypto.privateKey pair) = Pure.drawn w 32
    /\ Crypto.privateKeyToPublicKey C (Crypto.privateKey pair)
       = Ok (Crypto.publicKey pair).
Proof.
  intros laws Hr.
  pose proof (scalar_of_hex_text (Pure.drawn w 32) ltac:(discriminate)) as Hk.
  pose proof (privateKeyToPublicKey_on C laws _ _ Hk Hr) as Hp.
  rewrite generateECKeyPair_run, Hp.
  eexists. split; [reflexivity|]. cbn [Crypto.privateKey Crypto.publicKey].
  split; [reflexivity|]. split; [apply Crypto_hex_roundtrip | exact Hp].
Qed.

Lemma generateECKeyPair_in_range_witness :
  let w : World := fun i => if (i =? 31)%nat then x03 else x00 in
  1 <= SHA256.be_value (Pure.drawn w 32) 0 < order Z7.curve
  /\ exists pair,
       Crypto.generateECKeyPair Z7.curve w = (Ok pair, Pure.after w 32)
       /\ Crypto.hexToArrayBuffer (Crypto.privateKey pair) = Pure.drawn w 32.
Proof.
  intros w.
  assert (E : SHA256.be_value (Pure.drawn w 32) 0 = 3)
    by (vm_compute; reflexivity).
  assert (R : 1 <= SHA256.be_value (Pure.drawn w 32) 0 < order Z7.curve)
    by (rewrite E; cbn [order Z7.curve]; lia).
  split; [exact R|].
  destruct (generateECKeyPair_in_range Z7.curve w Z7_laws R)
    as (pair & H1 & _ & H3 & _).
  exists pair. split; assumption.
Defined.

(** X13. When the 32 bytes drawn read as zero or as a value from [n] up,
    [generateECKeyPair] rejects with the curve library's range error, the
    bytes being consumed all the same; [generateKeys] catches this and sets
    no keys. *)
Theorem generateECKeyPair_out_of_range (C : Curve) (w : World) :
  ~ (1 <= SHA256.be_value (Pure.drawn w 32) 0 < order C) ->
  Crypto.generateECKeyPair C w = (Err InvalidScalar, Pure.after w 32)
  /\ DemoSteps.generateKeys C w = (Ok None, Pure.after w 32).
Proof.
  intros Hr.
  pose proof (scalar_of_hex_text (Pure.drawn w 32) ltac:(discriminate)) as Hk.
  pose proof (privateKeyToPublicKey_out_of_range C _ _ Hk Hr) as Hp.
  assert (H : Crypto.generateECKeyPair C w = (Err InvalidScalar, Pure.after w 32))
    by (now rewrite generateECKeyPair_run, Hp).
  split; [exact H|].
  unfold DemoSteps.generateKeys, try_catch, bindM. now rewrite H.
Qed.

Lemma generateECKeyPair_out_of_range_witness :
  let w : World := fun _ => x00 in
  ~ (1 <= SHA256.be_value (Pure.drawn w 32) 0 < order Z7.curve)
  /\ Crypto.generateECKeyPair Z7.curve w = (Err InvalidScalar, Pure.after w 32).
Proof.
  intros w.
  assert (E : SHA256.be_value (Pure.drawn w 32) 0 = 0)
    by (vm_compute; reflexivity).
  assert (R : ~ (1 <= SHA256.be_value (Pure.drawn w 32) 0 < order Z7.curve))
    by (rewrite E; lia).
  split; [exact R|].
  exact (proj1 (generateECKeyPair_out_of_range Z7.curve w R)).
Defined.

End CurveProperties.

(** ** The derivation callbacks *)

Section DemoProperties.
Import JS.

Lemma ECPoint_of_bytes_x_truthy (raw : list byte) :
  Demo.falsy (Crypto.x (Pure.ECPoint_of_bytes raw)) = false.
Proof. reflexivity. Qed.

Lemma deriveHMACKey_run (x salt info : string) (w : World) :
  Demo.falsy x = false ->
  let prk := SHA256.hmac (Pure.extract_key salt) (Hkdf.hexToArrayBuffer x) in
  let okm := Pure.expand_of prk (TextEncoder_encode info) 32 in
  Demo.deriveHMACKey x salt info w
  = (Ok (Some (Hkdf.arrayBufferToHex prk, Hkdf.arrayBufferToHex okm)), w).
Proof.
  intros Hx prk okm. unfold Demo.deriveHMACKey. rewrite Hx.
  pose proof (hkdfWithSteps_run (Hkdf.hexToArrayBuffer x) salt info 32 w) as H.
  cbv zeta in H. unfold try_catch, bindM. rewrite H. reflexivity.
Qed.

(** X14. [deriveHMACKey] never rejects and leaves the random source
    alone.  With an empty [x] it sets nothing; with any other text, be it
    hexadecimal or not, it sets the PRK text and a key text that decodes to
    the 32 bytes [hkdf] derives from the bytes of [x]. *)
Theorem deriveHMACKey_outcome (x salt info : string) (w : World) :
  (x = EmptyString /\ Demo.deriveHMACKey x salt info w = (Ok None, w))
  \/ (x <> EmptyString
      /\ exists prkHex hmacKey key,
           Demo.deriveHMACKey x salt info w = (Ok (Some (prkHex, hmacKey)), w)
           /\ Hkdf.hkdf (Hkdf.hexToArrayBuffer x) salt info 32 w = (Ok key, w)
           /\ Hkdf.hexToArrayBuffer hmacKey = key
           /\ List.length key = 32%nat).
Proof.
  destruct x as [|c x]; [left; split; reflexivity|].
  right. split; [discriminate|].
  pose proof (deriveHMACKey_run (String c x) salt info w eq_refl) as H.
  cbv zeta in H.
  do 3 eexists. split; [exact H|]. split; [apply hkdf_run|].
  split.
  - rewrite Hkdf_hexToArrayBuffer_same. apply Crypto_hex_roundtrip.
  - apply expand_of_length. lia.
Qed.

(** X15. Whatever the backend, when [performValidatorECDH] sets a result
    [S] and a key text, [S] is what [performECDH] returned, the random
    source is untouched, and [deriveHMACKey] run on [S.x] with the same salt
    and info sets the same key text: a validator that reaches the producer's
    point holds the producer's key. *)
Theorem validator_key_is_producer_key (C : Curve) (validatorPrivateKey : string)
    (dbPublicKey S : Crypto.ECPoint) (salt info K : string) (w w' : World) :
  Demo.performValidatorECDH C validatorPrivateKey dbPublicKey salt info w
  = (Ok (Some (S, K)), w') ->
  w' = w
  /\ Crypto.performECDH C validatorPrivateKey dbPublicKey = Ok S
  /\ exists prkHex,
       Demo.deriveHMACKey (Crypto.x S) salt info w
       = (Ok (Some (prkHex, K)), w).
Proof.
  unfold Demo.performValidatorECDH. intros H.
  destruct (Demo.falsy validatorPrivateKey || Demo.falsy (Crypto.x dbPublicKey));
    [discriminate|].
  unfold try_catch, bindM, lift in H.
  destruct (Crypto.performECDH C validatorPrivateKey dbPublicKey)
    as [R|e] eqn:HE; [|discriminate].
  rewrite hkdf_run in H. cbn [ret] in H.
  injection H as HS HK Hw. subst R. subst w'.
  split; [reflexivity|]. split; [reflexivity|].
  apply performECDH_inv in HE as (raw & _ & ->).
  eexists. rewrite deriveHMACKey_run by apply ECPoint_of_bytes_x_truthy.
  rewrite <- HK. reflexivity.
Qed.

Lemma validator_key_is_producer_key_witness :
  let D := Pure.ECPoint_of_bytes (Z7.encode Z7.R3) in
  let S := Pure.ECPoint_of_bytes (Z7.encode Z7.R6) in
  let w : World := fun _ => x00 in
  exists K,
    Demo.performValidatorECDH Z7.curve "0x02" D "" "info" w
    = (Ok (Some (S, K)), w)
    /\ exists prkHex,
         Demo.deriveHMACKey (Crypto.x S) "" "info" w
         = (Ok (Some (prkHex, K)), w).
Proof.
  intros D S w.
  assert (H : exists K,
             Demo.performValidatorECDH Z7.curve "0x02" D "" "info" w
             = (Ok (Some (S, K)), w)).
  { unfold Demo.performValidatorECDH.
    change (Demo.falsy "0x02" || Demo.falsy (Crypto.x D)) with false.
    cbv iota. unfold try_catch, bindM, lift.
    replace (Crypto.performECDH Z7.curve "0x02" D) with (Ok S)
      by (vm_compute; reflexivity).
    rewrite hkdf_run. eexists. reflexivity. }
  destruct H as (K & H). exists K. split; [exact H|].
  exact (proj2 (proj2 (validator_key_is_producer_key Z7.curve "0x02" D S
                         "" "info" K w w H))).
Defined.

(** X16. [performValidatorECDH] never rejects and never draws
    randomness: it sets nothing exactly when the private key text or [x] of
    the public key is empty or [performECDH] fails, the failure being caught
    and not passed on. *)
Theorem performValidatorECDH_outcome (C : Curve) (validatorPrivateKey : string)
    (dbPublicKey : Crypto.ECPoint) (salt info : string) (w : World) :
  exists o,
    Demo.performValidatorECDH C validatorPrivateKey dbPublicKey salt info w
    = (Ok o, w)
    /\ (o = None <->
        validatorPrivateKey = EmptyString
        \/ Crypto.x dbPublicKey = EmptyString
        \/ exists e,
             Crypto.performECDH C validatorPrivateKey dbPublicKey = Err e).
Proof.
  unfold Demo.performValidatorECDH.
  destruct validatorPrivateKey as [|c k].
  { exists None. split; [reflexivity|]. split; auto. }
  destruct (Crypto.x dbPublicKey) as [|c' x'] eqn:Hx.
  { exists None. split; [reflexivity|]. split; auto. }
  cbn [Demo.falsy orb]. unfold try_catch, bindM, lift.
  destruct (Crypto.performECDH C (String c k) dbPublicKey) as [S|e] eqn:HE.
  - rewrite hkdf_run. cbn [ret]. eexists. split; [reflexivity|].
    split; [discriminate|].
    intros [H|[H|[e H]]]; discriminate.
  - exists None. split; [reflexivity|]. split; [|reflexivity].
    intros _. right. right. now exists e.
Qed.

End DemoProperties.

(** ** The WebCrypto key helpers *)

Section CryptoKeysProperties.
Import JS.
Variable ECCryptoKey : Type.
Variable exportKey_raw : ECCryptoKey -> M (list byte).
Variable importKey_raw_ECDH_P256 :
  list byte -> bool -> list WebCrypto.KeyUsage -> M ECCryptoKey.

Lemma u8_set_length (target source result : list byte) (offset : nat) :
  u8_set target source offset = Ok result ->
  List.length result = List.length target.
Proof.
  unfold u8_set.
  destruct (offset + List.length source <=? List.length target)%nat eqn:E;
    [|discriminate].
  apply Nat.leb_le in E. intros H. injection H as <-.
  rewrite !length_app, length_firstn, length_skipn. lia.
Qed.

(** X17. [extractPublicKeyCoordinates] accepts an exported key only if
    it is 65 bytes starting with 0x04, and throws otherwise; on the
    coordinates it returns, [createPublicKeyFromCoordinates] hands the
    platform the very bytes that were exported. *)
Theorem public_key_coordinates_roundtrip (publicKey : ECCryptoKey)
    (raw : list byte) (w w1 : World) :
  exportKey_raw publicKey w = (Ok raw, w1) ->
  (Crypto.badFormat raw = true ->
   CryptoKeys.extractPublicKeyCoordinates ECCryptoKey exportKey_raw publicKey w
   = (Err MalformedEncoding, w1))
  /\ (Crypto.badFormat raw = false ->
      exists point,
        CryptoKeys.extractPublicKeyCoordinates ECCryptoKey exportKey_raw
          publicKey w = (Ok point, w1)
        /\ forall w2,
             CryptoKeys.createPublicKeyFromCoordinates ECCryptoKey
               importKey_raw_ECDH_P256 point w2
             = importKey_raw_ECDH_P256 raw false [] w2).
Proof.
  intros HE. unfold CryptoKeys.extractPublicKeyCoordinates, bindM.
  rewrite HE. split; intros B; rewrite B; [reflexivity|].
  eexists. split; [reflexivity|]. intros w2.
  apply badFormat_false in B as [Hl Ht].
  destruct (raw_point_split raw Hl Ht) as (Hraw & Hx & Hy).
  unfold CryptoKeys.createPublicKeyFromCoordinates.
  cbn [Crypto.x Crypto.y]. rewrite !Crypto_hex_roundtrip.
  destruct (public_bytes_built _ _ Hx Hy) as [E1 E2].
  unfold bindM, lift. rewrite E1, E2, <- Hraw. reflexivity.
Qed.

(** X18. [createPublicKeyFromCoordinates] throws a [RangeError], without
    reaching the platform, when the [y] text decodes to more than 32 bytes
    or the [x] text to more than 64. *)
Theorem createPublicKeyFromCoordinates_too_long (point : Crypto.ECPoint)
    (w : World) :
  (64 < String.length (String_replace "0x" "" (Crypto.x point)) / 2)%nat
  \/ (32 < String.length (String_replace "0x" "" (Crypto.y point)) / 2)%nat ->
  CryptoKeys.createPublicKeyFromCoordinates ECCryptoKey
    importKey_raw_ECDH_P256 point w = (Err RangeError, w).
Proof.
  intros H. unfold CryptoKeys.createPublicKeyFromCoordinates, bindM, lift.
  assert (Lx : List.length (Crypto.hexToArrayBuffer (Crypto.x point))
               = (String.length (String_replace "0x" "" (Crypto.x point)) / 2)%nat).
  { unfold Crypto.hexToArrayBuffer. rewrite hexToArrayBuffer_loop_length.
    unfold new_Uint8Array. now rewrite repeat_length. }
  assert (Ly : List.length (Crypto.hexToArrayBuffer (Crypto.y point))
               = (String.length (String_replace "0x" "" (Crypto.y point)) / 2)%nat).
  { unfold Crypto.hexToArrayBuffer. rewrite hexToArrayBuffer_loop_length.
    unfold new_Uint8Array. now rewrite repeat_length. }
  destruct (u8_set (u8_store (new_Uint8Array 65) 0 x04)
              (Crypto.hexToArrayBuffer (Crypto.x point)) 1) as [b1|e] eqn:E1.
  - pose proof (u8_set_length _ _ _ _ E1) as L1.
    rewrite u8_store_length in L1. unfold new_Uint8Array in L1.
    rewrite repeat_length in L1.
    assert (Hx : (1 + List.length (Crypto.hexToArrayBuffer (Crypto.x point))
                  <= 65)%nat).
    { revert E1. unfold u8_set. rewrite u8_store_length.
      unfold new_Uint8Array. rewrite repeat_length.
      destruct (_ <=? 65)%nat eqn:T; [|discriminate].
      intros _. now apply Nat.leb_le in T. }
    unfold u8_set. rewrite L1.
    replace (33 + List.length (Crypto.hexToArrayBuffer (Crypto.y point))
             <=? 65)%nat with false; [reflexivity|].
    symmetry. apply Nat.leb_gt. lia.
  - revert E1. unfold u8_set.
    destruct (_ <=? _)%nat; [discriminate|]. intros E. injection E as <-.
    reflexivity.
Qed.

End CryptoKeysProperties.

Lemma public_key_coordinates_roundtrip_witness :
  let exportKey : list byte -> M (list byte) := fun k w => (Ok k, w) in
  let importKey : list byte -> bool -> list WebCrypto.KeyUsage -> M (list byte) :=
    fun raw _ _ w => (Ok raw, w) in
  let raw := Z7.encode Z7.R3 in
  let w : World := fun _ => x00 in
  exportKey raw w = (Ok raw, w)
  /\ exists point,
       CryptoKeys.extractPublicKeyCoordinates (list byte) exportKey raw w
       = (Ok point, w)
       /\ CryptoKeys.createPublicKeyFromCoordinates (list byte) importKey
            point w = (Ok raw, w).
Proof.
  intros exportKey importKey raw w.
  split; [reflexivity|].
  destruct (proj2 (public_key_coordinates_roundtrip (list byte) exportKey
                     importKey raw raw w w eq_refl) eq_refl)
    as (point & H1 & H2).
  exists point. split; [exact H1 | exact (H2 w)].
Defined.

Lemma createPublicKeyFromCoordinates_too_long_witness :
  let importKey : list byte -> bool -> list WebCrypto.KeyUsage -> M (list byte) :=
    fun raw _ _ w => (Ok raw, w) in
  let point :=
    {| Crypto.x := "0x01";
       Crypto.y := Crypto.arrayBufferToHex (repeat x01 33) |} in
  (32 < String.length (JS.String_replace "0x" "" (Crypto.y point)) / 2)%nat
  /\ CryptoKeys.createPublicKeyFromCoordinates (list byte) importKey point
       (fun _ => x00) = (Err RangeError, fun _ => x00).
Proof.
  intros importKey point.
  assert (H : (32 < String.length
                      (JS.String_replace "0x" "" (Crypto.y point)) / 2)%nat)
    by (vm_compute; lia).
  split; [exact H|].
  apply (createPublicKeyFromCoordinates_too_long (list byte) importKey point).
  right. exact H.
Defined.

(** ** A whole run of the page *)

Section RunProperties.
Import JS.

Lemma arrayBufferToHex_truthy (bs : list byte) :
  Demo.falsy (Crypto.arrayBufferToHex bs) = false.
Proof. reflexivity. Qed.

(** X19. A run of the protocol callbacks in order, on a backend that is
    a group of prime order: if the three draws of 32 bytes (HSM key,
    validator key, blind) read as scalars in [1, n-1], then [generateKeys],
    [generateBlind], [applyBlinding], [performHSMECDH], [deriveHMACKey],
    [generateDbG] and [performValidatorECDH] all set their fields, the
    validator's ECDH result is the HSM's, and the validator's key text is the
    producer's. *)
Theorem demo_run_agrees (C : Curve) (salt info : string) (w : World) :
  CurveLaws C ->
  let w1 := Pure.after w 32 in
  let w2 := Pure.after w1 32 in
  let w3 := Pure.after w2 32 in
  1 <= SHA256.be_value (Pure.drawn w 32) 0 < order C ->
  1 <= SHA256.be_value (Pure.drawn w1 32) 0 < order C ->
  1 <= SHA256.be_value (Pure.drawn w2 32) 0 < order C ->
  exists hsm validator blind B S D prkHex K,
    DemoSteps.generateKeys C w = (Ok (Some (hsm, validator)), w2)
    /\ Crypto.generateBlind w2 = (Ok blind, w3)
    /\ DemoSteps.applyBlinding C blind (Crypto.publicKey validator) w3
       = (Ok (Some B), w3)
    /\ DemoSteps.performHSMECDH C (Crypto.privateKey hsm) B w3
       = (Ok (Some S), w3)
    /\ Demo.deriveHMACKey (Crypto.x S) salt info w3
       = (Ok (Some (prkHex, K)), w3)
    /\ DemoSteps.generateDbG C (Crypto.privateKey hsm) blind w3
       = (Ok (Some D), w3)
    /\ Demo.performValidatorECDH C (Crypto.privateKey validator) D salt info w3
       = (Ok (Some (S, K)), w3).
Proof.
  intros laws w1 w2 w3 R1 R2 R3.
  set (d := SHA256.be_value (Pure.drawn w 32) 0) in *.
  set (v := SHA256.be_value (Pure.drawn w1 32) 0) in *.
  set (b := SHA256.be_value (Pure.drawn w2 32) 0) in *.
  set (dh := Crypto.arrayBufferToHex (Pure.drawn w 32)).
  set (vh := Crypto.arrayBufferToHex (Pure.drawn w1 32)).
  set (bh := Crypto.arrayBufferToHex (Pure.drawn w2 32)).
  assert (Hd : BigInt_0x (String_replace "0x" "" dh) = Ok d)
    by (apply scalar_of_hex_text; discriminate).
  assert (Hv : BigInt_0x (String_replace "0x" "" vh) = Ok v)
    by (apply scalar_of_hex_text; discriminate).
  assert (Hb : BigInt_0x (String_replace "0x" "" bh) = Ok b)
    by (apply scalar_of_hex_text; discriminate).
  pose proof (BASE_nonzero C laws) as G0.
  pose proof (mul_nonzero C laws v _ R2 G0) as V0.
  pose proof (mul_nonzero C laws b _ R3 G0) as B0.
  pose proof (mul_nonzero C laws b _ R3 V0) as BV0.
  pose proof (mul_nonzero C laws d _ R1 B0) as DB0.
  pose proof (privateKeyToPublicKey_on C laws dh d Hd R1) as Pd.
  pose proof (privateKeyToPublicKey_on C laws vh v Hv R2) as Pv.
  pose proof (privateKeyToPublicKey_on C laws bh b Hb R3) as Pb.
  pose proof (performECDH_on_point C laws bh b _ Hb R3 V0) as EB.
  pose proof (performECDH_on_point C laws dh d _ Hd R1 BV0) as ES.
  pose proof (performECDH_on_point C laws dh d _ Hd R1 B0) as ED.
  pose proof (performECDH_on_point C laws vh v _ Hv R2 DB0) as EV.
  assert (EQ : mul C v (mul C d (mul C b (BASE C)))
               = mul C d (mul C b (mul C v (BASE C)))).
  { rewrite !(mul_mul C laws). f_equal.
    rewrite <- Z.mul_assoc. apply Z.mul_comm. }
  rewrite EQ in EV.
  set (S := Pure.ECPoint_of_bytes
              (toBytes C (mul C d (mul C b (mul C v (BASE C)))))) in *.
  pose proof (deriveHMACKey_run (Crypto.x S) salt info w3
                (ECPoint_of_bytes_x_truthy _)) as HK.
  cbv zeta in HK.
  exists {| Crypto.privateKey := dh;
            Crypto.publicKey := Pure.ECPoint_of_bytes
                                  (toBytes C (mul C d (BASE C))) |}.
  exists {| Crypto.privateKey := vh;
            Crypto.publicKey := Pure.ECPoint_of_bytes
                                  (toBytes C (mul C v (BASE C))) |}.
  exists bh.
  exists (Pure.ECPoint_of_bytes (toBytes C (mul C b (mul C v (BASE C))))).
  exists S.
  exists (Pure.ECPoint_of_bytes (toBytes C (mul C d (mul C b (BASE C))))).
  do 2 eexists.
  cbn [Crypto.privateKey Crypto.publicKey].
  split; [|split; [|split; [|split; [|split; [|split]]]]].
  - unfold DemoSteps.generateKeys, try_catch, bindM.
    rewrite (generateECKeyPair_run C w). fold dh. rewrite Pd.
    fold w1. rewrite (generateECKeyPair_run C w1). fold vh. rewrite Pv.
    reflexivity.
  - reflexivity.
  - unfold DemoSteps.applyBlinding.
    match goal with
    | |- context [Demo.falsy ?a || Demo.falsy ?b] =>
        change (Demo.falsy a || Demo.falsy b) with false
    end. cbv iota. unfold try_catch, bindM, lift, Crypto.scalarMultiplication.
    fold bh. rewrite EB. reflexivity.
  - unfold DemoSteps.performHSMECDH.
    match goal with
    | |- context [Demo.falsy ?a || Demo.falsy ?b] =>
        change (Demo.falsy a || Demo.falsy b) with false
    end. cbv iota. unfold try_catch, bindM, lift. fold dh. rewrite ES.
    reflexivity.
  - exact HK.
  - unfold DemoSteps.generateDbG.
    match goal with
    | |- context [Demo.falsy ?a || Demo.falsy ?b] =>
        change (Demo.falsy a || Demo.falsy b) with false
    end. cbv iota. unfold try_catch, bindM, lift, Crypto.calculateDbG.
    fold dh bh. rewrite Pb. cbn [bindR]. rewrite ED. reflexivity.
  - unfold Demo.performValidatorECDH.
    match goal with
    | |- context [Demo.falsy ?a || Demo.falsy ?b] =>
        change (Demo.falsy a || Demo.falsy b) with false
    end. cbv iota. unfold try_catch, bindM, lift. fold vh. rewrite EV.
    rewrite hkdf_run. reflexivity.
Qed.

Lemma demo_run_agrees_witness :
  let w : World :=
    fun i => if (i =? 31)%nat then x01
             else if (i =? 63)%nat then x02
             else if (i =? 95)%nat then x03 else x00 in
  (1 <= SHA256.be_value (Pure.drawn w 32) 0 < order Z7.curve
   /\ 1 <= SHA256.be_value (Pure.drawn (Pure.after w 32) 32) 0 < order Z7.curve
   /\ 1 <= SHA256.be_value
             (Pure.drawn (Pure.after (Pure.after w 32) 32) 32) 0
        < order Z7.curve)
  /\ exists S D K prkHex,
       Demo.deriveHMACKey (Crypto.x S) "" "HS256 signature key"
         (Pure.after (Pure.after (Pure.after w 32) 32) 32)
       = (Ok (Some (prkHex, K)),
          Pure.after (Pure.after (Pure.after w 32) 32) 32)
       /\ Demo.performValidatorECDH Z7.curve
            (Crypto.arrayBufferToHex (Pure.drawn (Pure.after w 32) 32)) D
            "" "HS256 signature key"
            (Pure.after (Pure.after (Pure.after w 32) 32) 32)
          = (Ok (Some (S, K)),
             Pure.after (Pure.after (Pure.after w 32) 32) 32).
Proof.
  intros w.
  assert (E1 : SHA256.be_value (Pure.drawn w 32) 0 = 1)
    by (vm_compute; reflexivity).
  assert (E2 : SHA256.be_value (Pure.drawn (Pure.after w 32) 32) 0 = 2)
    by (vm_compute; reflexivity).
  assert (E3 : SHA256.be_value
                 (Pure.drawn (Pure.after (Pure.after w 32) 32) 32) 0 = 3)
    by (vm_compute; reflexivity).
  assert (R1 : 1 <= SHA256.be_value (Pure.drawn w 32) 0 < order Z7.curve)
    by (rewrite E1; cbn [order Z7.curve]; lia).
  assert (R2 : 1 <= SHA256.be_value (Pure.drawn (Pure.after w 32) 32) 0
               < order Z7.curve)
    by (rewrite E2; cbn [order Z7.curve]; lia).
  assert (R3 : 1 <= SHA256.be_value
                      (Pure.drawn (Pure.after (Pure.after w 32) 32) 32) 0
               < order Z7.curve)
    by (rewrite E3; cbn [order Z7.curve]; lia).
  split; [repeat split; first [apply R1 | apply R2 | apply R3]|].
  destruct (demo_run_agrees Z7.curve "" "HS256 signature key" w Z7_laws
              R1 R2 R3)
    as (hsm & val & blind & B & S & D & prkHex & K
        & H1 & H2 & H3 & H4 & H5 & H6 & H7).
  exists S, D, K, prkHex. split; [exact H5|].
  unfold DemoSteps.generateKeys, try_catch, bindM in H1.
  rewrite (generateECKeyPair_run Z7.curve w) in H1.
  destruct (Crypto.privateKeyToPublicKey Z7.curve
              (Crypto.arrayBufferToHex (Pure.drawn w 32)));
    [|discriminate].
  rewrite (generateECKeyPair_run Z7.curve (Pure.after w 32)) in H1.
  destruct (Crypto.privateKeyToPublicKey Z7.curve
              (Crypto.arrayBufferToHex (Pure.drawn (Pure.after w 32) 32)));
    [|discriminate].
  injection H1 as _ Hval. subst val. exact H7.
Defined.

End RunProperties.
